(** * es_reindex: the zero-downtime reindex management command

    A shallow embedding of
    [django_elasticsearch_dsl/management/commands/es_reindex.py].

    The command is a sequence of calls on an Elasticsearch client and of
    lines written to stdout.  It is embedded as code in a state-and-exception
    monad over a "world" that holds the cluster behind the client, the lines
    written so far and the log of the requests sent so far.  The client is an
    interface (a type class): the theorems about what the command sends hold
    for every client, and the scenarios are run on a reference cluster. *)

From Stdlib Require Import String Ascii List ZArith Bool Lia DecimalString.
From stdpp Require Import gmap strings list.

(** ** Python strings *)

Module Py.

(** [str.lower], on the ASCII letters. *)
Definition lower_ascii (c : ascii) : ascii :=
  let n := N_of_ascii c in
  if ((65 <=? n) && (n <=? 90))%N then ascii_of_N (n + 32) else c.

Fixpoint lower (s : string) : string :=
  match s with
  | EmptyString => EmptyString
  | String c s' => String (lower_ascii c) (lower s')
  end.

(** [s.startswith(p)] *)
Definition startswith (s p : string) : bool := String.prefix p s.

(** [s.replace(old, new)]: every occurrence of [old], left to right, without
    overlap.  [skip] counts the characters of an occurrence still to drop. *)
Fixpoint replace_from (old new : string) (skip : nat) (s : string) : string :=
  match s with
  | EmptyString => EmptyString
  | String c s' =>
      match skip with
      | S k => replace_from old new k s'
      | O =>
          if String.prefix old s
          then new +:+ replace_from old new (String.length old - 1) s'
          else String c (replace_from old new 0 s')
      end
  end.

(** With an empty [old] Python puts [new] around every character. *)
Fixpoint intersperse (new s : string) : string :=
  match s with
  | EmptyString => new
  | String c s' => new +:+ String c (intersperse new s')
  end.

Definition replace (s old new : string) : string :=
  match old with
  | EmptyString => intersperse new s
  | _ => replace_from old new 0 s
  end.

(** [sep.join(l)] *)
Definition join (sep : string) (l : list string) : string := String.concat sep l.

(** [str(n)] of an integer: its decimal digits, with a sign when negative. *)
Definition str_int (n : Z) : string := NilZero.string_of_int (Z.to_int n).

End Py.

(** ** Exceptions and results *)

Inductive exn : Type :=
| NotFoundError
| IndexError
| KeyError (key : string)
| ValueError
| CommandError (msg : string)
| TransportError (info : string).

Inductive result (A : Type) : Type :=
| Ok (a : A)
| Raise (e : exn).
Arguments Ok {A} a.
Arguments Raise {A} e.

(** ** [str.format] with positional fields

    [{}] takes the next argument, [{N}] the argument at index [N]; an index
    past the arguments raises [IndexError] ("Replacement index N out of range
    for positional args tuple").  [field] is the text of the replacement field
    being read, when inside one. *)

Definition field_index (name : string) (auto : nat) : result (nat * nat) :=
  match name with
  | EmptyString => Ok (auto, S auto)
  | _ =>
      match NilEmpty.uint_of_string name with
      | Some u => Ok (Nat.of_uint u, auto)
      | None => Raise (KeyError name)
      end
  end.

Fixpoint format_from (tmpl : string) (args : list string) (auto : nat)
    (field : option string) : result string :=
  match tmpl, field with
  | EmptyString, None => Ok EmptyString
  | EmptyString, Some _ => Raise ValueError
  | String c rest, None =>
      if Ascii.eqb c "{"%char then format_from rest args auto (Some EmptyString)
      else
        match format_from rest args auto None with
        | Ok s => Ok (String c s)
        | Raise e => Raise e
        end
  | String c rest, Some name =>
      if Ascii.eqb c "}"%char then
        match field_index name auto with
        | Ok (i, auto') =>
            match nth_error args i with
            | Some a =>
                match format_from rest args auto' None with
                | Ok s => Ok (a +:+ s)
                | Raise e => Raise e
                end
            | None => Raise IndexError
            end
        | Raise e => Raise e
        end
      else format_from rest args auto (Some (name +:+ String c EmptyString))
  end.

Definition format (tmpl : string) (args : list string) : result string :=
  format_from tmpl args 0 None.

(** ** The registry's objects

    [registries.py] is not part of the command: a model exposes its [_meta]
    labels and its class name, a document its index and model, an index its
    name.  The registry is a parameter of the command. *)

Record model : Type := Model {
  app_label : string;      (* model._meta.app_label *)
  model_name : string;     (* model._meta.model_name *)
  __name__ : string        (* model.__name__ *)
}.

Record index : Type := Index { _name : string }.

Record document : Type := Document {
  _index : index;          (* doc._index *)
  django_model : model;    (* doc.django.model *)
  queryset_count : Z       (* doc().get_queryset().count() *)
}.

Global Instance model_eq_dec : EqDecision model.
Proof. solve_decision. Defined.

Global Instance index_eq_dec : EqDecision index.
Proof. solve_decision. Defined.

Record Registry : Type := {
  get_models : list model;
  get_documents : list model -> list document;
  get_indices : list model -> list index
}.

(** ** Options of the command

    [index_base_id] is the integer timestamp by default and a string when
    given on the command line ([type=str]). *)

Inductive base_id : Type :=
| IdInt (n : Z)
| IdStr (s : string).

(** [str(options["index_base_id"])], which is also what [format] inserts. *)
Definition str (b : base_id) : string :=
  match b with
  | IdInt n => Py.str_int n
  | IdStr s => s
  end.

Record Options : Type := {
  models : option (list string);
  alias : bool;
  wipe_old_indexes : bool;
  refresh_new_indexes : bool;
  count : bool;
  index_base_id : base_id;
  alias_wildcard_pattern : string;
  alias_fixed_pattern : string;
  parallel : bool
}.

(** ** Requests to the cluster *)

Inductive action : Type :=
| Remove (alias : string) (indices : list string)   (* {"remove": {"alias", "indices"}} *)
| Add (alias : string) (index : string).            (* {"add": {"alias", "index"}} *)

Inductive request : Type :=
| GetAlias (name : string)
| UpdateAliases (actions : list action)
| Delete (index : string)
| Refresh (index : string)
| SaveTemplate (name pattern : string)
| DocUpdate (doc : document) (parallel : bool) (index_base_id : base_id).

(** The answer of [get_alias] is a dict keyed by index name; only its keys are
    read, and their order is the dict's. *)
Definition alias_response : Type := list (string * list string).

Definition keys (d : alias_response) : list string := map fst d.

(** The client: reading an alias does not change the cluster, the other calls
    may, also when they raise. *)
Class Elasticsearch (ES : Type) : Type := {
  es_get_alias : string -> ES -> result alias_response;
  es_update_aliases : list action -> ES -> result unit * ES;
  es_delete : string -> ES -> result unit * ES;
  es_refresh : string -> ES -> result unit * ES;
  es_save_template : string -> string -> ES -> result unit * ES;
  es_doc_update : document -> bool -> base_id -> ES -> result unit * ES
}.

(** ** The monad of the command *)

Record world (ES : Type) : Type := World {
  cluster : ES;
  stdout : list string;
  requests : list request
}.
Arguments World {ES} _ _ _.
Arguments cluster {ES} _.
Arguments stdout {ES} _.
Arguments requests {ES} _.

Definition M (ES A : Type) : Type := world ES -> result A * world ES.

Definition ret {ES A} (a : A) : M ES A := fun w => (Ok a, w).

Definition raise {ES A} (e : exn) : M ES A := fun w => (Raise e, w).

Definition bind {ES A B} (m : M ES A) (k : A -> M ES B) : M ES B :=
  fun w =>
    match m w with
    | (Ok a, w') => k a w'
    | (Raise e, w') => (Raise e, w')
    end.

Notation "x <- c1 ;; c2" := (bind c1 (fun x => c2))
  (at level 100, c1 at next level, right associativity).
Notation "c1 ;; c2" := (bind c1 (fun _ => c2))
  (at level 100, right associativity).

(** [try: body except NotFoundError: handler] *)
Definition try_except_NotFoundError {ES A} (body handler : M ES A) : M ES A :=
  fun w =>
    match body w with
    | (Raise NotFoundError, w') => handler w'
    | r => r
    end.

(** [for x in l: body] *)
Fixpoint for_each {ES B} (l : list B) (body : B -> M ES unit) : M ES unit :=
  match l with
  | [] => ret tt
  | x :: l' => body x ;; for_each l' body
  end.

Definition lift {ES A} (r : result A) : M ES A := fun w => (r, w).

(** [self.stdout.write(msg)] *)
Definition stdout_write {ES} (msg : string) : M ES unit :=
  fun w => (Ok tt, World (cluster w) (stdout w ++ [msg]) (requests w)).

(** [l[i]] *)
Definition getitem {ES A} (l : list A) (i : nat) : M ES A :=
  match nth_error l i with
  | Some x => ret x
  | None => raise IndexError
  end.

Definition log {ES} (r : request) (w : world ES) : world ES :=
  World (cluster w) (stdout w) (requests w ++ [r]).

Definition call {ES} (r : request) (op : ES -> result unit * ES) : M ES unit :=
  fun w =>
    let '(res, c) := op (cluster w) in
    (res, World c (stdout w) (requests w ++ [r])).

Section Client.
Context {ES : Type} `{Elasticsearch ES}.

(** [es.indices.get_alias(name=...)] *)
Definition indices_get_alias (name : string) : M ES alias_response :=
  fun w => (es_get_alias name (cluster w), log (GetAlias name) w).

(** [es.indices.update_aliases(body={"actions": ...})] *)
Definition indices_update_aliases (actions : list action) : M ES unit :=
  call (UpdateAliases actions) (es_update_aliases actions).

(** [es.indices.delete(index=...)] *)
Definition indices_delete (index : string) : M ES unit :=
  call (Delete index) (es_delete index).

(** [es.indices.refresh(index=...)] *)
Definition indices_refresh (index : string) : M ES unit :=
  call (Refresh index) (es_refresh index).

(** [doc._index.as_template(name, pattern).save()] *)
Definition index_template_save (name pattern : string) : M ES unit :=
  call (SaveTemplate name pattern) (es_save_template name pattern).

(** [doc().update(qs, parallel=..., index_base_id=...)] *)
Definition doc_update (doc : document) (parallel : bool) (id : base_id) : M ES unit :=
  call (DocUpdate doc parallel id) (es_doc_update doc parallel id).

End Client.

(** ** The command *)

Section Command.
Context {ES : Type} `{Elasticsearch ES}.
Variable registry : Registry.

(** The inner loop of [_get_models]: one pass over the registered models for
    one (lower-cased) selector, threading [models] and [match_found]. *)
Fixpoint _get_models_scan (arg : string) (registered : list model)
    (models : list model) (match_found : bool) : M ES (list model * bool) :=
  match registered with
  | [] => ret (models, match_found)
  | model :: registered' =>
      if String.eqb (app_label model) arg then
        _get_models_scan arg registered' (models ++ [model]) true
      else
        qualified <- lift (format "{}.{}"
                       [Py.lower (app_label model); Py.lower (model_name model)]) ;;
        if String.eqb qualified arg then
          _get_models_scan arg registered' (models ++ [model]) true
        else
          _get_models_scan arg registered' models match_found
  end.

(** The outer loop of [_get_models]. *)
Fixpoint _get_models_args (args : list string) (models : list model)
    : M ES (list model) :=
  match args with
  | [] => ret models
  | arg :: args' =>
      let arg := Py.lower arg in
      scanned <- _get_models_scan arg (get_models registry) models false ;;
      let '(models, match_found) := scanned in
      if negb match_found then
        msg <- lift (format "No model or app named {}" [arg]) ;;
        raise (CommandError msg)
      else _get_models_args args' models
  end.

(** [_get_models]: [if args] is false for [None] and for the empty list;
    [set(models)] keeps one copy of every model. *)
Definition _get_models (args : option (list string)) : M ES (list model) :=
  models <-
    match args with
    | Some (arg :: args') => _get_models_args (arg :: args') []
    | _ => ret (get_models registry)
    end ;;
  ret (remove_dups models).

Definition _create_index_templates (models : list model) (options : Options)
    : M ES unit :=
  let index_base_id := index_base_id options in
  for_each (get_documents registry models) (fun doc =>
    msg <- lift (format "Creating index template for '{}'" [_name (_index doc)]) ;;
    stdout_write msg ;;
    pattern <- lift (format "{0}-{1}-*" [str index_base_id; _name (_index doc)]) ;;
    index_template_save (_name (_index doc)) pattern).

Definition _reindex_as_new (models : list model) (options : Options) : M ES unit :=
  let parallel := parallel options in
  let index_base_id := index_base_id options in
  for_each (get_documents registry models) (fun doc =>
    msg <- lift (format "Indexing {} '{}' objects {}"
             [ (if count options then Py.str_int (queryset_count doc) else "all");
               __name__ (django_model doc);
               (if parallel then "(parallel)" else EmptyString) ]) ;;
    stdout_write msg ;;
    doc_update doc parallel index_base_id).

Definition _refresh_new_indexes (models : list model) (options : Options)
    : M ES unit :=
  pattern <- lift (format "{0}-*" [str (index_base_id options)]) ;;
  indices_refresh pattern.

Definition _update_wildcard_indexes (index : index) (options : Options) : M ES unit :=
  pattern <- lift (format "{0}-{1}-*" [str (index_base_id options); _name index]) ;;
  alias <- lift (format "{0}{1}" [_name index; alias_wildcard_pattern options]) ;;
  msg <- lift (format "Creating wildcard Alias {0} {1} for '{2}'"
           [alias; pattern; _name index]) ;;
  stdout_write msg ;;
  try_except_NotFoundError
    (old_index_aliases <- indices_get_alias alias ;;
     let old_indexes := keys old_index_aliases in
     first <- getitem old_indexes 0 ;;
     if Py.startswith first (str (index_base_id options)) then
       stdout_write "Old Indexes also match current index_base_id, skipping Alias update"
     else
       indices_update_aliases [Remove alias old_indexes; Add alias pattern] ;;
       if wipe_old_indexes options then
         first <- getitem old_indexes 0 ;;
         if Py.startswith first (str (index_base_id options)) then
           stdout_write
             "Old Indexes also match current index_base_id, skipping wipe_old_indexes"
         else indices_delete (Py.join "," old_indexes)
       else ret tt)
    (indices_update_aliases [Add alias pattern]).

(** The body of the loop of [_update_fixed_indexes]. *)
Definition _update_fixed_index (index : index) (options : Options)
    (current_index : string) : M ES unit :=
  prefix <- lift (format "{0}-{1}" [str (index_base_id options); _name index]) ;;
  let index_postfix := Py.replace current_index prefix EmptyString in
  alias <- lift (format "{0}{1}{2}"
             [_name index; alias_fixed_pattern options; index_postfix]) ;;
  msg <- lift (format "Creating fixed Alias {0} for {1} index {2}'"
           [alias; _name index; current_index]) ;;
  stdout_write msg ;;
  try_except_NotFoundError
    (old_indexes_for_alias <- indices_get_alias alias ;;
     let old_indexes := keys old_indexes_for_alias in
     indices_update_aliases [Remove alias old_indexes; Add alias current_index])
    (indices_update_aliases [Add alias current_index]).

Definition _update_fixed_indexes (index : index) (options : Options) : M ES unit :=
  w_alias <- lift (format "{0}{1}" [_name index; alias_wildcard_pattern options]) ;;
  msg <- lift (format "Creating fixed Aliases for indexes found in {0} '{1}'"
           [w_alias; _name index]) ;;
  stdout_write msg ;;
  try_except_NotFoundError
    (current_indexes_for_alias <- indices_get_alias w_alias ;;
     let current_indexes := keys current_indexes_for_alias in
     first <- getitem current_indexes 0 ;;
     if negb (Py.startswith first (str (index_base_id options))) then
       stdout_write
         "Current Indexes don't match the current index_base_id, skipping Alias update"
     else
       for_each current_indexes (_update_fixed_index index options))
    (msg <- lift (format
              "No Existing indexes found for alias '{1}' - Not creating Fixed indexes"
              [w_alias]) ;;
     stdout_write msg).

(** [_update_alias]: per index, the wildcard alias, then the fixed ones. *)
Definition _update_alias (models : list model) (options : Options) : M ES unit :=
  for_each (get_indices registry models) (fun index =>
    _update_wildcard_indexes index options ;;
    (* Must be called second *)
    _update_fixed_indexes index options).

Definition handle (options : Options) : M ES unit :=
  models <- _get_models (models options) ;;
  _create_index_templates models options ;;
  _reindex_as_new models options ;;
  (if refresh_new_indexes options then _refresh_new_indexes models options else ret tt) ;;
  (if alias options then _update_alias models options else ret tt).

End Command.

(** ** A reference cluster

    The search cluster behind the client is not part of the repository.  The
    scenarios and the idempotence theorem are run on this model of it, after
    the collaborator contract of the command (an index and alias management
    service).  An index carries a set of aliases; an alias resolves to the
    indexes that carry it, in the cluster's order, and reading an alias that
    no index carries fails with the not-found kind.  An alias update applies
    its actions in order and at once; the [index] of an [add] is a pattern in
    which [*] stands for any run of characters.  Only the alias read can
    fail, as in the contract. *)

Module RefCluster.

(** Modelled from the spec: the state of the search cluster, indexes with
    their aliases and the index templates. *)
Record t : Type := Cluster {
  indices : list (string * gset string);    (* index name, its aliases *)
  templates : list (string * string)        (* template name, index pattern *)
}.

Fixpoint glob (pattern name : string) : bool :=
  match pattern with
  | EmptyString =>
      match name with
      | EmptyString => true
      | _ => false
      end
  | String p pattern' =>
      if Ascii.eqb p "*"%char then
        (fix star (name : string) : bool :=
           glob pattern' name
           || match name with
              | EmptyString => false
              | String _ name' => star name'
              end) name
      else
        match name with
        | String c name' => Ascii.eqb p c && glob pattern' name'
        | EmptyString => false
        end
  end.

Fixpoint split (sep : ascii) (s : string) : list string :=
  match s with
  | EmptyString => [EmptyString]
  | String c s' =>
      if Ascii.eqb c sep then EmptyString :: split sep s'
      else
        match split sep s' with
        | [] => [String c EmptyString]
        | word :: words => String c word :: words
        end
  end.

Definition carries (a : string) (ix : string * gset string) : bool :=
  bool_decide (a ∈ ix.2).

(** The indexes an alias resolves to. *)
Definition resolve (a : string) (c : t) : list string :=
  map fst (List.filter (carries a) (indices c)).

Definition get_alias (name : string) (c : t) : result alias_response :=
  match resolve name c with
  | [] => Raise NotFoundError
  | names => Ok (map (fun i => (i, [name])) names)
  end.

Definition remove_alias (a : string) (names : list string)
    (ix : string * gset string) : string * gset string :=
  if bool_decide (ix.1 ∈ names) then (ix.1, ix.2 ∖ {[a]}) else ix.

Definition add_alias (a : string) (pattern : string)
    (ix : string * gset string) : string * gset string :=
  if glob pattern ix.1 then (ix.1, ix.2 ∪ {[a]}) else ix.

Definition apply_action (ixs : list (string * gset string)) (act : action)
    : list (string * gset string) :=
  match act with
  | Remove a names => map (remove_alias a names) ixs
  | Add a pattern => map (add_alias a pattern) ixs
  end.

Definition update_aliases (actions : list action) (c : t) : result unit * t :=
  (Ok tt, Cluster (fold_left apply_action actions (indices c)) (templates c)).

(** [index] is a comma-separated list of index names. *)
Definition delete (index : string) (c : t) : result unit * t :=
  let names := split ","%char index in
  (Ok tt,
   Cluster (List.filter (fun ix => negb (bool_decide (ix.1 ∈ names))) (indices c))
           (templates c)).

Definition refresh (index : string) (c : t) : result unit * t := (Ok tt, c).

Definition save_template (name pattern : string) (c : t) : result unit * t :=
  (Ok tt,
   Cluster (indices c)
           ((name, pattern)
              :: List.filter (fun tp => negb (String.eqb tp.1 name)) (templates c))).

(** Pointing alias [a] at pattern [pat]: on it where the name matches, off
    it elsewhere. *)
Definition assign_alias (a pat : string) (ix : string * gset string)
    : string * gset string :=
  if glob pat ix.1 then (ix.1, ix.2 ∪ {[a]}) else (ix.1, ix.2 ∖ {[a]}).

(** No [*] in a string. *)
Fixpoint star_free (s : string) : bool :=
  match s with
  | EmptyString => true
  | String c s' => negb (Ascii.eqb c "*"%char) && star_free s'
  end.

(** No comma in a string. *)
Fixpoint comma_free (s : string) : bool :=
  match s with
  | EmptyString => true
  | String c s' => negb (Ascii.eqb c ","%char) && comma_free s'
  end.

(** Modelled from the spec: [doc().update] of the document class, which is
    not part of the command.  Populating a document type creates its physical
    index [{run_id}-{family}-{doc_suffix}] when it is not there yet; the
    suffix is taken to be the model's name. *)
Definition physical_index (doc : document) (id : base_id) : string :=
  str id +:+ "-" +:+ _name (_index doc) +:+ "-" +:+ model_name (django_model doc).

Definition doc_update (doc : document) (parallel : bool) (id : base_id) (c : t)
    : result unit * t :=
  let name := physical_index doc id in
  if bool_decide (name ∈ map fst (indices c)) then (Ok tt, c)
  else (Ok tt, Cluster (indices c ++ [(name, ∅)]) (templates c)).

Global Instance client : Elasticsearch t := {
  es_get_alias := get_alias;
  es_update_aliases := update_aliases;
  es_delete := delete;
  es_refresh := refresh;
  es_save_template := save_template;
  es_doc_update := doc_update
}.

End RefCluster.

(** ** A client with canned alias answers

    A test double: the alias read answers from a table and every other call
    succeeds without effect. *)

Module Canned.

Definition t : Type := list (string * alias_response).

Fixpoint get_alias (name : string) (c : t) : result alias_response :=
  match c with
  | [] => Raise NotFoundError
  | (a, answer) :: c' => if String.eqb a name then Ok answer else get_alias name c'
  end.

Global Instance client : Elasticsearch t := {
  es_get_alias := get_alias;
  es_update_aliases := fun _ c => (Ok tt, c);
  es_delete := fun _ c => (Ok tt, c);
  es_refresh := fun _ c => (Ok tt, c);
  es_save_template := fun _ _ c => (Ok tt, c);
  es_doc_update := fun _ _ _ c => (Ok tt, c)
}.

End Canned.

(** ** Names computed by the command *)

Definition wildcard_alias_name (index : index) (options : Options) : string :=
  _name index +:+ alias_wildcard_pattern options.

Definition target_pattern (index : index) (options : Options) : string :=
  str (index_base_id options) +:+ "-" +:+ _name index +:+ "-*".

Definition fixed_alias_name (index : index) (options : Options) (current_index : string)
    : string :=
  _name index +:+ alias_fixed_pattern options
    +:+ Py.replace current_index (str (index_base_id options) +:+ "-" +:+ _name index)
          EmptyString.

Definition wildcard_banner (index : index) (options : Options) : string :=
  "Creating wildcard Alias " +:+ wildcard_alias_name index options +:+ " "
    +:+ target_pattern index options +:+ " for '" +:+ _name index +:+ "'".

Definition fixed_banner (index : index) (options : Options) : string :=
  "Creating fixed Aliases for indexes found in " +:+ wildcard_alias_name index options
    +:+ " '" +:+ _name index +:+ "'".

Definition fixed_index_banner (index : index) (options : Options) (current_index : string)
    : string :=
  "Creating fixed Alias " +:+ fixed_alias_name index options current_index +:+ " for "
    +:+ _name index +:+ " index " +:+ current_index +:+ "'".

Definition write {ES} (msg : string) (w : world ES) : world ES :=
  World (cluster w) (stdout w ++ [msg]) (requests w).

(** ** Observations on a run

    What the theorems say about a run is said with these: the world when an
    update has read the wildcard alias, the rest of the wildcard update, and
    the requests it sends as a function of the answers of the cluster. *)

Section Observations.
Context {ES : Type} `{Elasticsearch ES}.
Variables (index : index) (options : Options).

Local Abbreviation a := (wildcard_alias_name index options).
Local Abbreviation p := (target_pattern index options).
Local Abbreviation id := (str (index_base_id options)).

(** The world when the alias has been read: the banner written, the read
    logged. *)
Definition wildcard_started (w : world ES) : world ES :=
  log (GetAlias a) (write (wildcard_banner index options) w).

Definition fixed_started (w : world ES) : world ES :=
  log (GetAlias a) (write (fixed_banner index options) w).

(** What follows the same-run check of the wildcard update when it fails. *)
Definition wildcard_swap (old_indexes : list string) : M ES unit :=
  try_except_NotFoundError
    (indices_update_aliases [Remove a old_indexes; Add a p] ;;
     if wipe_old_indexes options
     then indices_delete (Py.join "," old_indexes)
     else ret tt)
    (indices_update_aliases [Add a p]).

(** What follows the combined request, from the answers of the cluster. *)
Definition after_swap (old_indexes : list string) (c : ES) : list request :=
  match es_update_aliases [Remove a old_indexes; Add a p] c with
  | (Raise NotFoundError, _) => [UpdateAliases [Add a p]]
  | (Raise _, _) => []
  | (Ok _, c1) =>
      if wipe_old_indexes options then
        match es_delete (Py.join "," old_indexes) c1 with
        | (Raise NotFoundError, _) =>
            [Delete (Py.join "," old_indexes); UpdateAliases [Add a p]]
        | _ => [Delete (Py.join "," old_indexes)]
        end
      else []
  end.

(** What the wildcard update sends after the alias read. *)
Definition after_read (c : ES) : list request :=
  match es_get_alias a c with
  | Raise NotFoundError => [UpdateAliases [Add a p]]
  | Raise _ => []
  | Ok answer =>
      match keys answer with
      | [] => []
      | first :: _ =>
          if Py.startswith first id then []
          else UpdateAliases [Remove a (keys answer); Add a p]
                 :: after_swap (keys answer) c
      end
  end.

End Observations.

(** A request of the loop over [targets]: the read of the fixed alias of one
    of them, or an update that adds that alias to it. *)
Definition fixed_request (index : index) (options : Options) (targets : list string)
    (r : request) : Prop :=
  exists c, In c targets /\
    let alias := fixed_alias_name index options c in
    r = GetAlias alias
    \/ (exists old, r = UpdateAliases [Remove alias old; Add alias c])
    \/ r = UpdateAliases [Add alias c].

(** The test of the inner loop of [_get_models], on a lower-cased selector. *)
Definition selector_matches (arg : string) (model : model) : bool :=
  String.eqb (app_label model) arg
  || String.eqb (Py.lower (app_label model) +:+ "." +:+ Py.lower (model_name model)) arg.

(** A selector that some registered model matches. *)
Definition known (registry : Registry) (selector : string) : bool :=
  existsb (selector_matches (Py.lower selector)) (get_models registry).

(** All the turns of the fixed-alias loop, on one index of the reference
    cluster. *)
Definition assign_all (index : index) (options : Options) (l : list string)
    (ix : string * gset string) : string * gset string :=
  fold_left
    (fun ix c => RefCluster.assign_alias (fixed_alias_name index options c) c ix) l ix.

(** Whether an index named [n] carries [x] after the loop, from whether it
    did before. *)
Definition verdict (index : index) (options : Options) (x n : string) (l : list string)
    (before : bool) : bool :=
  fold_left
    (fun b c =>
       if decide (x = fixed_alias_name index options c) then RefCluster.glob c n else b)
    l before.

(** The state a successful alias stage is meant to leave, on the reference
    cluster: for every family the wildcard alias resolves to indexes the
    first of which starts with the run identifier, and the fixed alias of
    each of them sits on the indexes of that name and on no other. *)
Definition settled (options : Options) (families : list index) (c : RefCluster.t)
    : Prop :=
  forall family, In family families ->
    (exists first rest,
       RefCluster.resolve (wildcard_alias_name family options) c = first :: rest
       /\ Py.startswith first (str (index_base_id options)) = true)
    /\ forall n ix,
         In n (RefCluster.resolve (wildcard_alias_name family options) c) ->
         In ix (RefCluster.indices c) ->
         (fixed_alias_name family options n ∈ ix.2 <-> RefCluster.glob n ix.1 = true).

(** ** Requests of the stages before the alias stage *)

(** [doc._index.as_template(doc._index._name, pattern).save()] for a document. *)
Definition template_request (options : Options) (doc : document) : request :=
  SaveTemplate (_name (_index doc)) (target_pattern (_index doc) options).

(** [doc().update(qs, parallel=..., index_base_id=...)] for a document. *)
Definition populate_request (options : Options) (doc : document) : request :=
  DocUpdate doc (parallel options) (index_base_id options).

(** [es.indices.refresh(index="{run_id}-*")] *)
Definition refresh_request (options : Options) : request :=
  Refresh (str (index_base_id options) +:+ "-*").

(** The requests that read or change an alias, or delete an index. *)
Definition alias_request (r : request) : bool :=
  match r with
  | GetAlias _ | UpdateAliases _ | Delete _ => true
  | _ => false
  end.

(** [old in s]: [old] occurs somewhere in [s]. *)
Fixpoint occurs (old s : string) : bool :=
  String.prefix old s
  || match s with
     | EmptyString => false
     | String _ s' => occurs old s'
     end.

(** The models a list of known selectors resolves to, before duplicates are
    dropped: for each selector in turn, the registered models it matches. *)
Definition matched_models (registry : Registry) (args : list string) : list model :=
  flat_map
    (fun selector =>
       List.filter (selector_matches (Py.lower selector)) (get_models registry))
    args.

(** Every request but the deletion of indexes. *)
Definition not_delete (r : request) : bool :=
  match r with
  | Delete _ => false
  | _ => true
  end.

(** ** A client that cannot reach the cluster

    Every call raises a transport error and changes nothing. *)

Module Offline.

Definition t : Type := unit.

Definition refused {A : Type} : result A := Raise (TransportError "connection refused").

Global Instance client : Elasticsearch t := {
  es_get_alias := fun _ _ => refused;
  es_update_aliases := fun _ c => (refused, c);
  es_delete := fun _ c => (refused, c);
  es_refresh := fun _ c => (refused, c);
  es_save_template := fun _ _ c => (refused, c);
  es_doc_update := fun _ _ _ c => (refused, c)
}.

End Offline.

(** ** A client whose cluster takes templates but no documents

    Template saves succeed; every bulk update raises a transport error, as
    when the indexes are read-only. *)

Module ReadOnly.

Inductive t : Type := Locked.

Global Instance client : Elasticsearch t := {
  es_get_alias := fun _ _ => Raise NotFoundError;
  es_update_aliases := fun _ c => (Ok tt, c);
  es_delete := fun _ c => (Ok tt, c);
  es_refresh := fun _ c => (Ok tt, c);
  es_save_template := fun _ _ c => (Ok tt, c);
  es_doc_update := fun _ _ _ c => (Raise (TransportError "index is read-only"), c)
}.

End ReadOnly.

(** ** Concrete clusters and registries *)

Definition start {ES : Type} (c : ES) : world ES := World c [] [].

Module Scenario.
Import RefCluster.

Definition book : index := Index "book".
Definition shop : index := Index "shop".
Definition novel : model := Model "library" "novel" "Novel".

Definition options (wipe : bool) : Options := {|
  models := None;
  alias := true;
  wipe_old_indexes := wipe;
  refresh_new_indexes := false;
  count := true;
  index_base_id := IdInt 1000;
  alias_wildcard_pattern := "_r_wildcard";
  alias_fixed_pattern := "_r";
  parallel := false
|}.

Definition registry (indexes : list index) : Registry := {|
  get_models := [novel];
  get_documents := fun _ => [Document book novel 3];
  get_indices := fun _ => indexes
|}.

(** Run 999 is live, run 1000 has been populated; the fixed alias of run
    999 may be there or not. *)
Definition before (had_fixed : bool) : t :=
  Cluster
    [ ("999-book-novel",
        if had_fixed then {[ "book_r_wildcard"; "book_r-novel" ]}
        else {[ "book_r_wildcard" ]});
      ("1000-book-novel", ∅) ]
    [].

(** A wildcard alias that lists an index of an older run first and one of
    the current run second. *)
Definition mixed : t :=
  Cluster
    [ ("999-book-a", {[ "book_r_wildcard" ]});
      ("1000-book-b", {[ "book_r_wildcard" ]}) ]
    [].

(** The same with an index of run 10001 in second place. *)
Definition later_run : t :=
  Cluster
    [ ("999-book-a", {[ "book_r_wildcard" ]});
      ("10001-book-x", {[ "book_r_wildcard" ]}) ]
    [].

(** Two families; the alias of [shop] also sits on the first index of
    [book], and the alias of [book] on an index of an older run. *)
Definition entangled : t :=
  Cluster
    [ ("999-shop-a", {[ "shop_r_wildcard" ]});
      ("1000-book-a", {[ "book_r_wildcard"; "shop_r_wildcard" ]});
      ("999-book-z", {[ "book_r_wildcard" ]});
      ("1000-book-c", {[ "book_r_wildcard" ]});
      ("1000-shop-s", ∅) ]
    [].

(** Suffixes under which the fixed alias of an index named [w] is the
    wildcard alias itself. *)
Definition short_options : Options := {|
  models := None;
  alias := true;
  wipe_old_indexes := true;
  refresh_new_indexes := false;
  count := true;
  index_base_id := IdInt 1000;
  alias_wildcard_pattern := "_w";
  alias_fixed_pattern := "_";
  parallel := false
|}.

Definition colliding : t :=
  Cluster [ ("1000-book-x", {[ "book_w" ]}); ("w", {[ "book_w" ]}) ] [].

(** Nothing aliased yet, the index of run 1000 populated. *)
Definition fresh : t := Cluster [ ("1000-book-novel", ∅) ] [].

(** Selecting by a label that is not registered. *)
Definition options_selecting (selectors : list string) : Options := {|
  models := Some selectors;
  alias := true;
  wipe_old_indexes := true;
  refresh_new_indexes := false;
  count := true;
  index_base_id := IdInt 1000;
  alias_wildcard_pattern := "_r_wildcard";
  alias_fixed_pattern := "_r";
  parallel := false
|}.

(** Canned answers: an alias that resolves to nothing, and one that
    resolves to an index of run 10001. *)
Definition empty_answer : Canned.t := [("book_r_wildcard", [])].
Definition run_10001 : Canned.t :=
  [("book_r_wildcard", [("10001-book-x", ["book_r_wildcard"])])].

(** The run of the book scenario with the alias update switched off. *)
Definition options_no_alias : Options := {|
  models := None;
  alias := false;
  wipe_old_indexes := true;
  refresh_new_indexes := true;
  count := false;
  index_base_id := IdInt 1000;
  alias_wildcard_pattern := "_r_wildcard";
  alias_fixed_pattern := "_r";
  parallel := true
|}.

(** A model whose app label is not in lower case. *)
Definition shop_book : model := Model "Shop" "book" "Book".

Definition shop_registry : Registry := {|
  get_models := [shop_book];
  get_documents := fun _ => [];
  get_indices := fun _ => []
|}.

End Scenario.

(** * Lemmas *)

(** ** Lemmas on strings and on [format] *)

Lemma append_cons (c : ascii) (s t : string) : String c s +:+ t = String c (s +:+ t).
Proof. reflexivity. Qed.

Lemma append_nil_r (s : string) : s +:+ EmptyString = s.
Proof.
  induction s as [|c s IH]; [reflexivity |].
  rewrite append_cons. f_equal. exact IH.
Qed.

Lemma format_qualified (a b : string) : format "{}.{}" [a; b] = Ok (a +:+ "." +:+ b).
Proof. cbv [format]. simpl. now rewrite append_nil_r. Qed.

Lemma format_no_model (a : string) :
  format "No model or app named {}" [a] = Ok ("No model or app named " +:+ a).
Proof. cbv [format]. simpl. now rewrite append_nil_r. Qed.

Lemma format_pattern (a b : string) :
  format "{0}-{1}-*" [a; b] = Ok (a +:+ "-" +:+ b +:+ "-*").
Proof. reflexivity. Qed.

Lemma format_prefix (a b : string) : format "{0}-{1}" [a; b] = Ok (a +:+ "-" +:+ b).
Proof. cbv [format]. simpl. now rewrite append_nil_r. Qed.

Lemma format_alias (a b : string) : format "{0}{1}" [a; b] = Ok (a +:+ b).
Proof. cbv [format]. simpl. now rewrite append_nil_r. Qed.

Lemma format_fixed_alias (a b c : string) :
  format "{0}{1}{2}" [a; b; c] = Ok (a +:+ b +:+ c).
Proof. cbv [format]. simpl. now rewrite append_nil_r. Qed.

Lemma format_missing_argument (a : string) :
  format "No Existing indexes found for alias '{1}' - Not creating Fixed indexes" [a]
  = Raise IndexError.
Proof. reflexivity. Qed.

(** ** How the two alias updates run, on any client *)

Section Runs.
Context {ES : Type} `{Elasticsearch ES}.
Variables (index : index) (options : Options).

Local Abbreviation a := (wildcard_alias_name index options).
Local Abbreviation p := (target_pattern index options).
Local Abbreviation id := (str (index_base_id options)).

Lemma wildcard_run (w : world ES) :
  _update_wildcard_indexes index options w =
  match es_get_alias a (cluster w) with
  | Raise NotFoundError =>
      indices_update_aliases [Add a p] (wildcard_started index options w)
  | Raise e => (Raise e, wildcard_started index options w)
  | Ok old_index_aliases =>
      match keys old_index_aliases with
      | [] => (Raise IndexError, wildcard_started index options w)
      | first :: _ =>
          if Py.startswith first id
          then (Ok tt,
                write "Old Indexes also match current index_base_id, skipping Alias update"
                  (wildcard_started index options w))
          else
            wildcard_swap index options (keys old_index_aliases)
              (wildcard_started index options w)
      end
  end.
Proof.
  unfold _update_wildcard_indexes, wildcard_swap, wildcard_started.
  unfold bind, lift, try_except_NotFoundError.
  rewrite format_pattern, format_alias.
  change (format _ _) with (Ok (A:=string) (wildcard_banner index options)).
  unfold stdout_write, indices_get_alias, getitem, ret, raise.
  cbn [cluster stdout requests].
  change (_name index +:+ alias_wildcard_pattern options) with a.
  change (id +:+ "-" +:+ _name index +:+ "-*") with p.
  destruct (es_get_alias a (cluster w)) as [resp|e]; [|destruct e; reflexivity].
  destruct (keys resp) as [|first rest]; [reflexivity|].
  cbn [nth_error].
  destruct (Py.startswith first id) eqn:Hsw; [reflexivity|].
  destruct (indices_update_aliases _ _) as [[[]|e] w1]; [|reflexivity].
  destruct (wipe_old_indexes options); reflexivity.
Qed.

Lemma fixed_index_run (current_index : string) (w : world ES) :
  _update_fixed_index index options current_index w =
  let alias := fixed_alias_name index options current_index in
  let w1 := log (GetAlias alias)
              (write (fixed_index_banner index options current_index) w) in
  match es_get_alias alias (cluster w) with
  | Ok old_indexes_for_alias =>
      try_except_NotFoundError
        (indices_update_aliases
           [Remove alias (keys old_indexes_for_alias); Add alias current_index])
        (indices_update_aliases [Add alias current_index]) w1
  | Raise NotFoundError => indices_update_aliases [Add alias current_index] w1
  | Raise e => (Raise e, w1)
  end.
Proof.
  unfold _update_fixed_index.
  unfold bind, lift, try_except_NotFoundError.
  rewrite format_prefix, format_fixed_alias.
  change (format _ _) with (Ok (A:=string) (fixed_index_banner index options current_index)).
  unfold stdout_write, indices_get_alias, ret, raise.
  cbn [cluster stdout requests].
  change (_name index +:+ alias_fixed_pattern options +:+ _)
    with (fixed_alias_name index options current_index).
  cbv zeta.
  destruct (es_get_alias _ (cluster w)) as [resp|e]; [|destruct e; reflexivity].
  reflexivity.
Qed.

Lemma fixed_run (w : world ES) :
  _update_fixed_indexes index options w =
  match es_get_alias a (cluster w) with
  | Raise NotFoundError => (Raise IndexError, fixed_started index options w)
  | Raise e => (Raise e, fixed_started index options w)
  | Ok current_indexes_for_alias =>
      match keys current_indexes_for_alias with
      | [] => (Raise IndexError, fixed_started index options w)
      | first :: _ =>
          if Py.startswith first id
          then
            try_except_NotFoundError
              (for_each (keys current_indexes_for_alias)
                 (_update_fixed_index index options))
              (raise IndexError) (fixed_started index options w)
          else
            (Ok tt,
             write
               "Current Indexes don't match the current index_base_id, skipping Alias update"
               (fixed_started index options w))
      end
  end.
Proof.
  unfold _update_fixed_indexes, fixed_started.
  unfold bind, lift, try_except_NotFoundError.
  rewrite format_alias, format_missing_argument.
  change (format _ _) with (Ok (A:=string) (fixed_banner index options)).
  unfold stdout_write, indices_get_alias, getitem, ret, raise.
  cbn [cluster stdout requests].
  change (_name index +:+ alias_wildcard_pattern options) with a.
  destruct (es_get_alias a (cluster w)) as [resp|e]; [|destruct e; reflexivity].
  destruct (keys resp) as [|first rest]; [reflexivity|].
  cbn [nth_error].
  destruct (Py.startswith first id) eqn:Hsw; cbn [negb]; [|reflexivity].
  destruct (for_each _ _ _) as [[[]|e] w1]; [reflexivity|].
  destruct e; reflexivity.
Qed.

End Runs.

Section Generic.
Context {ES : Type} `{Elasticsearch ES}.
Variables (index : index) (options : Options).

Local Abbreviation a := (wildcard_alias_name index options).
Local Abbreviation p := (target_pattern index options).
Local Abbreviation id := (str (index_base_id options)).

Lemma startswith_append (s t : string) : Py.startswith (s +:+ t) s = true.
Proof.
  unfold Py.startswith. induction s as [|c s IH]; [now destruct t|].
  rewrite append_cons. cbn. destruct (ascii_dec c c); [exact IH | congruence].
Qed.

(** When the first resolved index passes the same-run check the wildcard
    update only reads the alias. *)
Lemma wildcard_skips (w : world ES) resp first rest :
  es_get_alias a (cluster w) = Ok resp ->
  keys resp = first :: rest ->
  Py.startswith first id = true ->
  _update_wildcard_indexes index options w =
  (Ok tt,
   World (cluster w)
     (stdout w ++ [wildcard_banner index options;
                   "Old Indexes also match current index_base_id, skipping Alias update"])
     (requests w ++ [GetAlias a])).
Proof.
  intros Hget Hkeys Hsw. rewrite wildcard_run, Hget, Hkeys, Hsw.
  unfold write, wildcard_started, log, write. cbn [cluster stdout requests].
  now rewrite <- app_assoc.
Qed.

(** ... and the fixed update goes on to the loop over the resolved indexes. *)
Lemma fixed_proceeds (w : world ES) resp first rest :
  es_get_alias a (cluster w) = Ok resp ->
  keys resp = first :: rest ->
  Py.startswith first id = true ->
  _update_fixed_indexes index options w =
  try_except_NotFoundError
    (for_each (first :: rest) (_update_fixed_index index options))
    (raise IndexError) (fixed_started index options w).
Proof.
  intros Hget Hkeys Hsw. now rewrite fixed_run, Hget, Hkeys, Hsw.
Qed.

(** A missing wildcard alias makes the fixed update raise: the log line of
    the handler asks [format] for an argument that is not there. *)
Lemma fixed_missing_alias (w : world ES) :
  es_get_alias a (cluster w) = Raise NotFoundError ->
  _update_fixed_indexes index options w =
  (Raise IndexError,
   World (cluster w) (stdout w ++ [fixed_banner index options])
     (requests w ++ [GetAlias a])).
Proof. intros Hget. now rewrite fixed_run, Hget. Qed.

End Generic.

(** ** The requests of the fixed-alias loop *)

Section Loop.
Context {ES : Type} `{Elasticsearch ES}.
Variables (index : index) (options : Options).

Lemma call_requests (r : request) (op : ES -> result unit * ES) (w : world ES) :
  requests (call r op w).2 = requests w ++ [r].
Proof. unfold call. now destruct (op (cluster w)). Qed.

Lemma fixed_request_mono (l l' : list string) (r : request) :
  incl l l' -> fixed_request index options l r -> fixed_request index options l' r.
Proof. intros Hincl (c & Hc & Hr). exists c. split; [now apply Hincl | exact Hr]. Qed.

Lemma fixed_index_requests (c : string) (w : world ES) :
  exists rs,
    requests (_update_fixed_index index options c w).2 = requests w ++ rs
    /\ Forall (fixed_request index options [c]) rs.
Proof.
  assert (Hread : fixed_request index options [c]
                    (GetAlias (fixed_alias_name index options c)))
    by (exists c; split; [now left | now left]).
  assert (Hadd : fixed_request index options [c]
                   (UpdateAliases [Add (fixed_alias_name index options c) c]))
    by (exists c; split; [now left | now right; right]).
  assert (Hswap : forall old, fixed_request index options [c]
                   (UpdateAliases [Remove (fixed_alias_name index options c) old;
                                   Add (fixed_alias_name index options c) c]))
    by (intros old; exists c; split; [now left | right; left; now exists old]).
  rewrite fixed_index_run. cbv zeta.
  destruct (es_get_alias _ (cluster w)) as [resp|e].
  - unfold try_except_NotFoundError, indices_update_aliases, call, log, write.
    cbn [cluster stdout requests].
    destruct (es_update_aliases _ (cluster w)) as [[[]|e] c1].
    + eexists. cbn [snd requests]. rewrite <- app_assoc. split; [reflexivity|].
      repeat constructor; auto.
    + cbn [cluster stdout requests].
      destruct e;
        try (eexists; cbn [snd requests]; rewrite <- app_assoc; split; [reflexivity|];
             repeat constructor; auto).
      destruct (es_update_aliases _ c1) as [res c2].
      eexists. cbn [snd requests]. rewrite <- !app_assoc. split; [reflexivity|].
      repeat constructor; auto.
  - destruct e;
      try (eexists; cbn [snd requests log write]; split; [reflexivity|];
           repeat constructor; auto).
    unfold indices_update_aliases. rewrite call_requests.
    eexists. cbn [snd requests log write]. rewrite <- app_assoc. split; [reflexivity|].
    repeat constructor; auto.
Qed.

Lemma fixed_loop_requests (l : list string) (w : world ES) :
  exists rs,
    requests (for_each l (_update_fixed_index index options) w).2 = requests w ++ rs
    /\ Forall (fixed_request index options l) rs.
Proof.
  revert w. induction l as [|c l IH]; intros w.
  - exists []. cbn. now rewrite app_nil_r.
  - cbn [for_each]. unfold bind.
    destruct (fixed_index_requests c w) as (rs1 & Hrs1 & Hall1).
    destruct (_update_fixed_index index options c w) as [[[]|e] w1]; cbn [snd] in *.
    + destruct (IH w1) as (rs2 & Hrs2 & Hall2).
      exists (rs1 ++ rs2). rewrite Hrs2, Hrs1, <- app_assoc. split; [reflexivity|].
      apply Forall_app. split.
      * eapply Forall_impl; [exact Hall1|]. intros r. apply fixed_request_mono.
        intros x [->|[]]. now left.
      * eapply Forall_impl; [exact Hall2|]. intros r. apply fixed_request_mono.
        intros x Hx. now right.
    + exists rs1. split; [exact Hrs1|].
      eapply Forall_impl; [exact Hall1|]. intros r. apply fixed_request_mono.
      intros x [->|[]]. now left.
Qed.

End Loop.

(** ** Model resolution *)

Section Resolver.
Context {ES : Type} `{Elasticsearch ES}.
Variable registry : Registry.

Lemma _get_models_scan_run (arg : string) (registered models : list model)
    (match_found : bool) (w : world ES) :
  _get_models_scan arg registered models match_found w =
  (Ok (models ++ List.filter (selector_matches arg) registered,
       match_found || existsb (selector_matches arg) registered), w).
Proof.
  revert models match_found.
  induction registered as [|model registered IH]; intros models match_found.
  - cbn. now rewrite app_nil_r, orb_false_r.
  - cbn [_get_models_scan List.filter existsb].
    destruct (String.eqb (app_label model) arg) eqn:Hlabel.
    + assert (Hm : selector_matches arg model = true)
        by (unfold selector_matches; now rewrite Hlabel).
      rewrite Hm, IH, <- app_assoc. cbn. now rewrite orb_true_r.
    + unfold bind, lift. rewrite format_qualified.
      destruct (String.eqb (Py.lower (app_label model) +:+ "."
                              +:+ Py.lower (model_name model)) arg) eqn:Hqualified.
      * assert (Hm : selector_matches arg model = true)
          by (unfold selector_matches; rewrite Hqualified; apply orb_true_r).
        rewrite Hm, IH, <- app_assoc. cbn. now rewrite orb_true_r.
      * assert (Hm : selector_matches arg model = false)
          by (unfold selector_matches; now rewrite Hlabel, Hqualified).
        now rewrite Hm, IH.
Qed.

Lemma _get_models_args_unknown (pre post : list string) (selector : string)
    (models : list model) (w : world ES) :
  forallb (known registry) pre = true ->
  known registry selector = false ->
  _get_models_args registry (pre ++ selector :: post) models w =
  (Raise (CommandError ("No model or app named " +:+ Py.lower selector)), w).
Proof.
  revert models. induction pre as [|s pre IH]; intros models Hpre Hsel.
  - cbn [app _get_models_args]. unfold bind. rewrite _get_models_scan_run.
    fold (known registry selector). rewrite Hsel. cbn [orb negb].
    unfold lift. now rewrite format_no_model.
  - cbn [forallb] in Hpre. apply andb_true_iff in Hpre as [Hs Hpre].
    cbn [app _get_models_args]. unfold bind at 1. rewrite _get_models_scan_run.
    fold (known registry s). rewrite Hs. cbn [orb negb]. now apply IH.
Qed.

(** The first unknown registry selector of a list that has one. *)
Lemma first_unknown (args : list string) :
  forallb (known registry) args = false ->
  exists pre selector post,
    args = pre ++ selector :: post
    /\ forallb (known registry) pre = true
    /\ known registry selector = false.
Proof.
  induction args as [|s args IH]; [discriminate|].
  cbn [forallb]. destruct (known registry s) eqn:Hs.
  - cbn [andb]. intros Hargs. destruct (IH Hargs) as (pre & sel & post & -> & Hpre & Hsel).
    exists (s :: pre), sel, post. cbn [forallb]. now rewrite Hs, Hpre.
  - intros _. now exists [], s, args.
Qed.

(** A selector that matches a registered model as the code compares them
    resolves to it: the app label as written against the lower-cased
    selector, or the lower-cased [app.model] against it. *)
Lemma matched_selector_resolves (selector : string) (model : model) (w : world ES) :
  In model (get_models registry) ->
  selector_matches (Py.lower selector) model = true ->
  exists resolved,
    _get_models registry (Some [selector]) w = (Ok resolved, w) /\ In model resolved.
Proof.
  intros Hregistered Hmatch.
  assert (Hfound : existsb (selector_matches (Py.lower selector)) (get_models registry)
                   = true)
    by (apply existsb_exists; now exists model).
  unfold _get_models. cbn [_get_models_args]. unfold bind at 1 2.
  rewrite _get_models_scan_run, Hfound. cbn [orb negb app _get_models_args].
  unfold ret. eexists. split; [reflexivity|].
  apply list_elem_of_In, elem_of_remove_dups, list_elem_of_In, filter_In. auto.
Qed.

End Resolver.

(** ** The reference cluster: what an alias update does *)

Module RefFacts.
Import RefCluster.

Lemma carries_spec (a : string) (ix : string * gset string) :
  carries a ix = true <-> a ∈ ix.2.
Proof. unfold carries. apply bool_decide_eq_true. Qed.

Lemma resolve_spec (a : string) (c : t) (n : string) :
  In n (resolve a c) <-> exists ix, In ix (indices c) /\ ix.1 = n /\ a ∈ ix.2.
Proof.
  unfold resolve. rewrite in_map_iff. split.
  - intros (ix & Hn & Hix). apply filter_In in Hix as [Hix Hc].
    exists ix. repeat split; auto. now apply carries_spec.
  - intros (ix & Hix & Hn & Ha). exists ix. split; [exact Hn|].
    apply filter_In. split; [exact Hix|]. now apply carries_spec.
Qed.

Lemma difference_union_singleton (A : gset string) (a : string) :
  A ∖ {[a]} ∪ {[a]} = A ∪ {[a]}.
Proof.
  apply set_eq. intros x.
  rewrite !elem_of_union, elem_of_difference, !elem_of_singleton.
  destruct (decide (x = a)); tauto.
Qed.

Lemma difference_absent (A : gset string) (a : string) : a ∉ A -> A ∖ {[a]} = A.
Proof.
  intros Ha. apply set_eq. intros x.
  rewrite elem_of_difference, elem_of_singleton.
  split; [tauto|]. intros Hx. split; [exact Hx|]. intros ->. contradiction.
Qed.

(** Removing an alias from all the indexes that carry it and adding it to a
    pattern, in one update, is the assignment. *)
Lemma swap_is_assign (a pat : string) (ixs : list (string * gset string))
    (tp : list (string * string)) :
  map (add_alias a pat) (map (remove_alias a (resolve a (Cluster ixs tp))) ixs)
  = map (assign_alias a pat) ixs.
Proof.
  rewrite map_map. apply map_ext_in. intros [n A] Hix.
  unfold remove_alias, add_alias, assign_alias. cbn [fst snd].
  destruct (bool_decide (n ∈ resolve a (Cluster ixs tp))) eqn:Hn; cbn [fst snd].
  - destruct (glob pat n); [|reflexivity].
    now rewrite difference_union_singleton.
  - assert (Ha : a ∉ A).
    { intros Ha. apply bool_decide_eq_false in Hn. apply Hn.
      apply list_elem_of_In, resolve_spec. exists (n, A). auto. }
    destruct (glob pat n); [reflexivity|].
    now rewrite difference_absent.
Qed.

(** Adding an alias that no index carries is the assignment too. *)
Lemma add_is_assign (a pat : string) (ixs : list (string * gset string))
    (tp : list (string * string)) :
  resolve a (Cluster ixs tp) = [] ->
  map (add_alias a pat) ixs = map (assign_alias a pat) ixs.
Proof.
  intros Hnone. apply map_ext_in. intros [n A] Hix.
  unfold add_alias, assign_alias. cbn [fst snd].
  assert (Ha : a ∉ A).
  { intros Ha. assert (Hin : In n (resolve a (Cluster ixs tp)))
      by (apply resolve_spec; exists (n, A); auto).
    rewrite Hnone in Hin. destruct Hin. }
  destruct (glob pat n); [reflexivity|].
  now rewrite difference_absent.
Qed.

Lemma keys_answer (name : string) (names : list string) :
  keys (map (fun i => (i, [name])) names) = names.
Proof. unfold keys. rewrite map_map. cbn. apply map_id. Qed.

Lemma cluster_eta (c : t) : Cluster (indices c) (templates c) = c.
Proof. now destruct c. Qed.

(** The alias read of the reference cluster. *)
Lemma get_alias_run (name : string) (c : t) :
  es_get_alias name c =
  match resolve name c with
  | [] => Raise NotFoundError
  | names => Ok (map (fun i => (i, [name])) names)
  end.
Proof. reflexivity. Qed.

Section Fixed.
Variables (index : index) (options : Options).

(** One turn of the fixed-alias loop is an assignment. *)
Lemma fixed_index_effect (c : string) (w : world t) :
  exists w',
    _update_fixed_index index options c w = (Ok tt, w')
    /\ cluster w' =
       Cluster (map (assign_alias (fixed_alias_name index options c) c)
                  (indices (cluster w)))
               (templates (cluster w)).
Proof.
  rewrite fixed_index_run. cbv zeta. rewrite get_alias_run.
  destruct (resolve _ (cluster w)) as [|n names] eqn:Hres.
  - unfold indices_update_aliases, call. cbn.
    eexists. split; [reflexivity|]. cbn [cluster]. f_equal.
    apply add_is_assign with (tp := templates (cluster w)).
    now rewrite cluster_eta.
  - rewrite keys_answer.
    unfold try_except_NotFoundError, indices_update_aliases, call. cbn.
    eexists. split; [reflexivity|]. cbn [cluster]. f_equal.
    rewrite <- Hres, <- (cluster_eta (cluster w)) at 1.
    apply swap_is_assign.
Qed.

Lemma fixed_loop_effect (l : list string) (w : world t) :
  exists w',
    for_each l (_update_fixed_index index options) w = (Ok tt, w')
    /\ cluster w' =
       Cluster (map (assign_all index options l) (indices (cluster w)))
       (templates (cluster w)).
Proof.
  revert w. induction l as [|c l IH]; intros w.
  - exists w. split; [reflexivity|]. cbn. now rewrite map_id, cluster_eta.
  - cbn [for_each]. unfold bind.
    destruct (fixed_index_effect c w) as (w1 & -> & Hc1).
    destruct (IH w1) as (w2 & -> & Hc2).
    exists w2. split; [reflexivity|].
    rewrite Hc2, Hc1. cbn [indices templates]. now rewrite map_map.
Qed.

Lemma assign_alias_fst (a pat : string) (ix : string * gset string) :
  (assign_alias a pat ix).1 = ix.1.
Proof. unfold assign_alias. now destruct (glob pat ix.1). Qed.

Lemma assign_alias_carries (x a pat : string) (ix : string * gset string) :
  carries x (assign_alias a pat ix)
  = if decide (x = a) then glob pat ix.1 else carries x ix.
Proof.
  unfold assign_alias, carries.
  destruct (glob pat ix.1); cbn [snd]; destruct (decide (x = a)) as [->|Hne].
  - apply bool_decide_eq_true. apply elem_of_union. right. now apply elem_of_singleton.
  - apply bool_decide_ext. rewrite elem_of_union, elem_of_singleton. tauto.
  - apply bool_decide_eq_false. rewrite elem_of_difference, elem_of_singleton. tauto.
  - apply bool_decide_ext. rewrite elem_of_difference, elem_of_singleton. tauto.
Qed.

Lemma assign_all_cons (c : string) (l : list string) (ix : string * gset string) :
  assign_all index options (c :: l) ix
  = assign_all index options l (assign_alias (fixed_alias_name index options c) c ix).
Proof. reflexivity. Qed.

Lemma verdict_cons (x n c : string) (l : list string) (b : bool) :
  verdict index options x n (c :: l) b
  = verdict index options x n l
      (if decide (x = fixed_alias_name index options c) then glob c n else b).
Proof. reflexivity. Qed.

Lemma assign_all_fst (l : list string) (ix : string * gset string) :
  (assign_all index options l ix).1 = ix.1.
Proof.
  revert ix. induction l as [|c l IH]; intros ix; [reflexivity|].
  now rewrite assign_all_cons, IH, assign_alias_fst.
Qed.

Lemma assign_all_carries (x : string) (l : list string) (ix : string * gset string) :
  carries x (assign_all index options l ix)
  = verdict index options x ix.1 l (carries x ix).
Proof.
  revert ix. induction l as [|c l IH]; intros ix; [reflexivity|].
  now rewrite assign_all_cons, verdict_cons, IH, assign_alias_fst, assign_alias_carries.
Qed.

Lemma verdict_shape (x n : string) (l : list string) :
  (forall b, verdict index options x n l b = b)
  \/ (exists v, forall b, verdict index options x n l b = v).
Proof.
  induction l as [|c l IH]; [now left|].
  destruct (decide (x = fixed_alias_name index options c)) as [Heq|Hne].
  - right. exists (verdict index options x n l (glob c n)). intros b.
    rewrite verdict_cons. now destruct (decide (x = fixed_alias_name index options c)).
  - destruct IH as [Hid|[v Hv]]; [left | right; exists v]; intros b;
      rewrite verdict_cons;
      (destruct (decide (x = fixed_alias_name index options c)); [contradiction|]);
      auto.
Qed.

Lemma verdict_other (x n : string) (l : list string) (b : bool) :
  (forall c, In c l -> fixed_alias_name index options c <> x) ->
  verdict index options x n l b = b.
Proof.
  revert b. induction l as [|c l IH]; intros b Hl; [reflexivity|].
  rewrite verdict_cons.
  destruct (decide (x = fixed_alias_name index options c)) as [->|_].
  - exfalso. apply (Hl c); [now left | reflexivity].
  - apply IH. intros c' Hc'. apply Hl. now right.
Qed.

(** Running the loop again over the same indexes changes nothing more. *)
Lemma assign_all_idempotent (l : list string) (ix : string * gset string) :
  assign_all index options l (assign_all index options l ix)
  = assign_all index options l ix.
Proof.
  apply injective_projections; [now rewrite !assign_all_fst|].
  apply set_eq. intros x. rewrite <- !carries_spec.
  rewrite (assign_all_carries x l (assign_all index options l ix)), assign_all_fst.
  rewrite (assign_all_carries x l ix).
  destruct (verdict_shape x ix.1 l) as [Hid|[v Hv]].
  - now rewrite !Hid.
  - now rewrite !Hv.
Qed.

(** An alias that is not the fixed alias of any index of the loop keeps
    its indexes. *)
Lemma resolve_assign_all (x : string) (l : list string)
    (ixs : list (string * gset string)) (tp tp' : list (string * string)) :
  (forall c, In c l -> fixed_alias_name index options c <> x) ->
  resolve x (Cluster (map (assign_all index options l) ixs) tp)
  = resolve x (Cluster ixs tp').
Proof.
  intros Hl. unfold resolve. cbn [indices].
  induction ixs as [|ix ixs IH]; [reflexivity|].
  cbn [map List.filter].
  rewrite assign_all_carries, verdict_other by exact Hl.
  destruct (carries x ix); cbn [map]; now rewrite IH, ?assign_all_fst.
Qed.

End Fixed.

(** *** Patterns with a literal head *)

Lemma glob_literal_prefix (q rest n : string) :
  star_free q = true -> glob (q +:+ rest) n = true -> Py.startswith n q = true.
Proof.
  unfold Py.startswith. revert n. induction q as [|ch q IH]; intros n Hq Hglob.
  - now destruct n.
  - cbn [star_free] in Hq. apply andb_true_iff in Hq as [Hch Hq].
    apply negb_true_iff in Hch.
    rewrite append_cons in Hglob. cbn [glob] in Hglob. rewrite Hch in Hglob.
    destruct n as [|d n]; [discriminate|].
    apply andb_true_iff in Hglob as [Heq Hglob]. apply Ascii.eqb_eq in Heq as ->.
    cbn [String.prefix]. destruct (ascii_dec d d); [|congruence]. now apply IH.
Qed.

Lemma uint_star_free (d : Decimal.uint) : star_free (NilEmpty.string_of_uint d) = true.
Proof. induction d; cbn; auto. Qed.

Lemma str_int_star_free (n : Z) : star_free (Py.str_int n) = true.
Proof.
  unfold Py.str_int, NilZero.string_of_int, NilZero.string_of_uint.
  destruct (Z.to_int n) as [d|d]; destruct d; cbn [star_free];
    try reflexivity; apply (uint_star_free _).
Qed.

(** *** What the wildcard update leaves *)

Lemma map_fst_assign (a pat : string) (ixs : list (string * gset string)) :
  map fst (map (assign_alias a pat) ixs) = map fst ixs.
Proof.
  rewrite map_map. apply map_ext. intros ix. unfold assign_alias.
  now destruct (glob pat ix.1).
Qed.

Lemma resolve_assign_matches (a pat : string) (ixs : list (string * gset string))
    (tp : list (string * string)) (n : string) :
  In n (resolve a (Cluster (map (assign_alias a pat) ixs) tp)) -> glob pat n = true.
Proof.
  intros Hn. apply resolve_spec in Hn as (ix' & Hix' & <- & Ha).
  cbn [indices] in Hix'. apply in_map_iff in Hix' as (ix & <- & _).
  unfold assign_alias in *. destruct (glob pat ix.1) eqn:Hglob; [exact Hglob|].
  cbn [snd] in Ha. apply elem_of_difference in Ha as [_ Ha].
  exfalso. apply Ha. now apply elem_of_singleton.
Qed.

Lemma resolve_filter (a : string) (keep : string * gset string -> bool)
    (ixs : list (string * gset string)) (tp tp' : list (string * string)) (n : string) :
  In n (resolve a (Cluster (List.filter keep ixs) tp)) ->
  In n (resolve a (Cluster ixs tp')).
Proof.
  rewrite !resolve_spec. intros (ix & Hix & Hn & Ha). exists ix.
  cbn [indices] in *. apply filter_In in Hix as [Hix _]. auto.
Qed.

Lemma first_of_matches (q rest : string) (l : list string) :
  star_free q = true ->
  (forall n, In n l -> glob (q +:+ rest) n = true) ->
  match l with
  | [] => True
  | first :: _ => Py.startswith first q = true
  end.
Proof.
  intros Hq Hl. destruct l as [|first l]; [exact I|].
  apply glob_literal_prefix with rest; [exact Hq|]. apply Hl. now left.
Qed.

Lemma wildcard_effect (index : index) (options : Options) (w w1 : world t) :
  star_free (str (index_base_id options)) = true ->
  _update_wildcard_indexes index options w = (Ok tt, w1) ->
  incl (map fst (indices (cluster w1))) (map fst (indices (cluster w)))
  /\ match resolve (wildcard_alias_name index options) (cluster w1) with
     | [] => True
     | first :: _ => Py.startswith first (str (index_base_id options)) = true
     end.
Proof.
  intros Hid. rewrite wildcard_run, get_alias_run.
  destruct (resolve _ (cluster w)) as [|n names] eqn:Hres.
  - unfold indices_update_aliases, call. cbn. intros [= <-]. cbn [cluster indices].
    rewrite (add_is_assign _ _ _ (templates (cluster w)))
      by now rewrite cluster_eta.
    split; [rewrite map_fst_assign; apply incl_refl|].
    apply (first_of_matches _ ("-" +:+ _name index +:+ "-*")); [exact Hid|]. apply resolve_assign_matches.
  - rewrite keys_answer.
    destruct (Py.startswith n _) eqn:Hsw.
    + intros [= <-]. cbn [cluster write wildcard_started log].
      split; [apply incl_refl|]. now rewrite Hres.
    + unfold wildcard_swap, try_except_NotFoundError, bind, indices_update_aliases,
        indices_delete, call, ret.
      cbn. rewrite <- Hres at 1. rewrite <- (cluster_eta (cluster w)) at 1.
      rewrite swap_is_assign.
      destruct (wipe_old_indexes options); intros [= <-]; cbn [cluster indices].
      * split.
        -- intros x Hx. apply in_map_iff in Hx as (ix & <- & Hix).
           apply filter_In in Hix as [Hix _].
           rewrite <- (map_fst_assign (wildcard_alias_name index options)
                         (target_pattern index options)).
           now apply in_map.
        -- apply (first_of_matches _ ("-" +:+ _name index +:+ "-*")); [exact Hid|]. intros x Hx.
           eapply (resolve_assign_matches _ _ _ []), resolve_filter, Hx.
      * split; [rewrite map_fst_assign; apply incl_refl|].
        apply (first_of_matches _ ("-" +:+ _name index +:+ "-*")); [exact Hid|]. apply resolve_assign_matches.
Qed.

(** *** Running a family's alias updates again *)

Lemma resolve_names (a : string) (c : t) (n : string) :
  In n (resolve a c) -> In n (map fst (indices c)).
Proof.
  intros Hn. apply resolve_spec in Hn as (ix & Hix & <- & _). now apply in_map.
Qed.

Lemma family_rerun (index : index) (options : Options) (w wa w1 : world t) :
  star_free (str (index_base_id options)) = true ->
  (forall c, In c (map fst (indices (cluster w))) ->
     fixed_alias_name index options c <> wildcard_alias_name index options) ->
  _update_wildcard_indexes index options w = (Ok tt, wa) ->
  _update_fixed_indexes index options wa = (Ok tt, w1) ->
  exists wb w2 rs,
    _update_wildcard_indexes index options w1 = (Ok tt, wb)
    /\ cluster wb = cluster w1
    /\ requests wb = requests w1 ++ [GetAlias (wildcard_alias_name index options)]
    /\ _update_fixed_indexes index options wb = (Ok tt, w2)
    /\ cluster w2 = cluster w1
    /\ requests w2 = requests wb ++ GetAlias (wildcard_alias_name index options) :: rs
    /\ Forall (fixed_request index options
                 (resolve (wildcard_alias_name index options) (cluster w1))) rs
    /\ exists first rest,
         resolve (wildcard_alias_name index options) (cluster w1) = first :: rest
         /\ Py.startswith first (str (index_base_id options)) = true.
Proof.
  intros Hid Hfresh Hwild Hfixed.
  destruct (wildcard_effect index options w wa Hid Hwild) as [Hincl Hfirst].
  rewrite fixed_run, get_alias_run in Hfixed.
  destruct (resolve _ (cluster wa)) as [|first rest] eqn:HW; [discriminate|].
  rewrite keys_answer, Hfirst in Hfixed.
  set (W := first :: rest) in *.
  assert (HWfresh : forall c, In c W ->
            fixed_alias_name index options c <> wildcard_alias_name index options).
  { intros c Hc. apply Hfresh, Hincl.
    apply (resolve_names (wildcard_alias_name index options)). now rewrite HW. }
  (* the first run of the loop *)
  unfold try_except_NotFoundError in Hfixed.
  destruct (fixed_loop_effect index options W (fixed_started index options wa))
    as (w1' & Hloop1 & Hc1).
  rewrite Hloop1 in Hfixed. injection Hfixed as <-.
  cbn [fixed_started log write cluster] in Hc1.
  assert (HW1 : resolve (wildcard_alias_name index options) (cluster w1') = W).
  { rewrite Hc1, (resolve_assign_all index options _ _ _ _ (templates (cluster wa)))
      by exact HWfresh.
    now rewrite cluster_eta. }
  assert (Hget : es_get_alias (wildcard_alias_name index options) (cluster w1')
                 = Ok (map (fun i => (i, [wildcard_alias_name index options])) W))
    by (rewrite get_alias_run, HW1; reflexivity).
  (* the second wildcard update *)
  set (wb := World (cluster w1')
               (stdout w1' ++ [wildcard_banner index options;
                  "Old Indexes also match current index_base_id, skipping Alias update"])
               (requests w1' ++ [GetAlias (wildcard_alias_name index options)])).
  assert (Hwild2 : _update_wildcard_indexes index options w1' = (Ok tt, wb))
    by (eapply wildcard_skips; [exact Hget | apply keys_answer | exact Hfirst]).
  (* the second fixed update *)
  assert (Hget' : es_get_alias (wildcard_alias_name index options) (cluster wb)
                  = Ok (map (fun i => (i, [wildcard_alias_name index options])) W))
    by exact Hget.
  pose proof (fixed_proceeds index options wb _ first rest Hget' (keys_answer _ _) Hfirst)
    as Hfixed2.
  fold W in Hfixed2. unfold try_except_NotFoundError in Hfixed2.
  destruct (fixed_loop_effect index options W (fixed_started index options wb))
    as (w2 & Hloop2 & Hc2).
  destruct (fixed_loop_requests index options W (fixed_started index options wb))
    as (rs & Hrs & Hall).
  rewrite Hloop2 in Hfixed2, Hrs. cbn [snd] in Hrs.
  exists wb, w2, rs.
  split; [exact Hwild2|]. split; [reflexivity|]. split; [reflexivity|].
  split; [exact Hfixed2|]. split; [|split; [|split]].
  - rewrite Hc2. cbn [fixed_started log write cluster wb].
    rewrite Hc1. cbn [indices templates]. f_equal.
    rewrite map_map. apply map_ext. intros ix. apply assign_all_idempotent.
  - rewrite Hrs. cbn [fixed_started log write requests].
    now rewrite <- app_assoc.
  - rewrite HW1. exact Hall.
  - exists first, rest. split; [exact HW1 | exact Hfirst].
Qed.

(** *** Garbage collection on the reference cluster *)

Lemma split_comma_free (s : string) : comma_free s = true -> split "," s = [s].
Proof.
  induction s as [|c s IH]; [reflexivity|].
  cbn [comma_free split]. intros Hs. apply andb_true_iff in Hs as [Hc Hs].
  apply negb_true_iff in Hc. rewrite Hc, (IH Hs). reflexivity.
Qed.

Lemma split_append_comma (s t : string) :
  comma_free s = true -> split "," (s +:+ "," +:+ t) = s :: split "," t.
Proof.
  induction s as [|c s IH]; [reflexivity|].
  cbn [comma_free]. intros Hs. apply andb_true_iff in Hs as [Hc Hs].
  apply negb_true_iff in Hc. rewrite append_cons. cbn [split].
  rewrite Hc, (IH Hs). reflexivity.
Qed.

Lemma split_join (n : string) (names : list string) :
  forallb comma_free (n :: names) = true ->
  split "," (Py.join "," (n :: names)) = n :: names.
Proof.
  revert n. induction names as [|m names IH]; intros n Hfree;
    cbn [forallb] in Hfree; apply andb_true_iff in Hfree as [Hn Hfree].
  - now apply split_comma_free.
  - unfold Py.join in *. cbn [String.concat].
    rewrite split_append_comma by exact Hn. f_equal. now apply IH.
Qed.

(** X15.  On the reference cluster, with comma-free index names, a wildcard
    update that finds the alias on indexes of another run and wipes old
    indexes succeeds, and the indexes left are those the alias did not
    resolve to: the comma-joined delete removes the resolved indexes, all of
    them and no other. *)
Lemma garbage_collection_effect (index : index) (options : Options) (w : world t)
    (first : string) (rest : list string) :
  forallb comma_free (map fst (indices (cluster w))) = true ->
  resolve (wildcard_alias_name index options) (cluster w) = first :: rest ->
  Py.startswith first (str (index_base_id options)) = false ->
  wipe_old_indexes options = true ->
  exists w',
    _update_wildcard_indexes index options w = (Ok tt, w')
    /\ map fst (indices (cluster w'))
       = List.filter (fun n => negb (bool_decide (n ∈ first :: rest)))
           (map fst (indices (cluster w))).
Proof.
  intros Hfree Hres Hsw Hwipe.
  assert (Hold : forallb comma_free (first :: rest) = true).
  { apply forallb_forall. intros n Hn. rewrite forallb_forall in Hfree.
    apply Hfree, (resolve_names (wildcard_alias_name index options)). now rewrite Hres. }
  rewrite wildcard_run, get_alias_run, Hres, keys_answer, Hsw.
  unfold wildcard_swap, try_except_NotFoundError, bind, indices_update_aliases,
    indices_delete, call, ret.
  rewrite Hwipe.
  cbn [es_update_aliases es_delete client update_aliases delete cluster stdout requests
       wildcard_started log write fst snd].
  rewrite (split_join first rest Hold).
  eexists. split; [reflexivity|]. cbn [cluster indices fold_left apply_action].
  rewrite <- Hres. rewrite <- (cluster_eta (cluster w)) at 1. rewrite swap_is_assign.
  rewrite <- (map_fst_assign (wildcard_alias_name index options)
                (target_pattern index options) (indices (cluster w))).
  generalize (map (assign_alias (wildcard_alias_name index options)
                     (target_pattern index options)) (indices (cluster w))).
  intros l. induction l as [|ix l IH]; [reflexivity|].
  cbn [List.filter map]. destruct (negb _); cbn [map]; now rewrite IH.
Qed.

(** *** A settled cluster *)

Lemma union_present (A : gset string) (a : string) : a ∈ A -> A ∪ {[a]} = A.
Proof.
  intros Ha. apply set_eq. intros x. rewrite elem_of_union, elem_of_singleton.
  split; [intros [Hx| ->]; assumption | tauto].
Qed.

Lemma assign_all_settled (index : index) (options : Options) (l : list string)
    (ix : string * gset string) :
  (forall n, In n l -> (fixed_alias_name index options n ∈ ix.2 <-> glob n ix.1 = true)) ->
  assign_all index options l ix = ix.
Proof.
  induction l as [|c l IH]; intros Hl; [reflexivity|].
  rewrite assign_all_cons.
  assert (Hc : assign_alias (fixed_alias_name index options c) c ix = ix).
  { destruct ix as [n A]. unfold assign_alias. cbn [fst snd].
    pose proof (Hl c (or_introl eq_refl)) as Hiff. cbn [fst snd] in Hiff.
    destruct (glob c n) eqn:Hglob.
    - rewrite union_present; [reflexivity | now apply Hiff].
    - rewrite difference_absent; [reflexivity|].
      intros Ha. apply Hiff in Ha. discriminate. }
  rewrite Hc. apply IH. intros n Hn. apply Hl. now right.
Qed.

(** X16.  On a settled reference cluster the alias stage, over any number
    of families, succeeds and changes nothing: every wildcard update skips
    and every fixed update puts each fixed alias back where it is. *)
Lemma settled_stage_changes_nothing (options : Options) (families : list index)
    (w : world t) :
  settled options families (cluster w) ->
  exists w',
    for_each families
      (fun index =>
         _update_wildcard_indexes index options ;; _update_fixed_indexes index options) w
    = (Ok tt, w')
    /\ cluster w' = cluster w.
Proof.
  revert w. induction families as [|family families IH]; intros w Hsettled.
  - exists w. split; reflexivity.
  - destruct (Hsettled family (or_introl eq_refl)) as [(first & rest & HW & Hsw) Hfixed].
    assert (Hget : es_get_alias (wildcard_alias_name family options) (cluster w)
                   = Ok (map (fun i => (i, [wildcard_alias_name family options]))
                           (first :: rest)))
      by (rewrite get_alias_run, HW; reflexivity).
    cbn [for_each]. unfold bind.
    rewrite (wildcard_skips family options w _ first rest Hget (keys_answer _ _) Hsw).
    match goal with |- context [_update_fixed_indexes _ _ ?x] => set (wb := x) end.
    assert (Hget' : es_get_alias (wildcard_alias_name family options) (cluster wb)
                    = Ok (map (fun i => (i, [wildcard_alias_name family options]))
                            (first :: rest)))
      by exact Hget.
    rewrite (fixed_proceeds family options wb _ first rest Hget' (keys_answer _ _) Hsw).
    unfold try_except_NotFoundError.
    destruct (fixed_loop_effect family options (first :: rest)
                (fixed_started family options wb)) as (w1 & -> & Hc1).
    assert (Hsame : cluster w1 = cluster w).
    { rewrite Hc1. cbn [fixed_started log write cluster wb].
      rewrite <- (cluster_eta (cluster w)) at 3. f_equal.
      rewrite <- (map_id (indices (cluster w))) at 2.
      apply map_ext_in. intros ix Hix. apply assign_all_settled.
      intros n Hn. apply Hfixed; [now rewrite HW | exact Hix]. }
    destruct (IH w1) as (w' & Hrun & Hc').
    + rewrite Hsame. intros g Hg. apply Hsettled. now right.
    + exists w'. split; [exact Hrun | now rewrite Hc', Hsame].
Qed.

End RefFacts.

(** ** The requests of the wildcard update *)

Section Sent.
Context {ES : Type} `{Elasticsearch ES}.
Variables (index : index) (options : Options).

Local Abbreviation a := (wildcard_alias_name index options).
Local Abbreviation p := (target_pattern index options).
Local Abbreviation id := (str (index_base_id options)).

Lemma wildcard_requests (w : world ES) :
  requests (_update_wildcard_indexes index options w).2
  = requests w ++ GetAlias a :: after_read index options (cluster w).
Proof.
  rewrite wildcard_run. unfold after_read.
  destruct (es_get_alias a (cluster w)) as [answer|e].
  - destruct (keys answer) as [|first rest] eqn:Hkeys; [reflexivity|].
    destruct (Py.startswith first id); [reflexivity|].
    unfold after_swap, wildcard_swap, try_except_NotFoundError, bind, ret,
      indices_update_aliases, indices_delete, call.
    cbn [wildcard_started log write cluster stdout requests].
    destruct (es_update_aliases _ (cluster w)) as [[[]|e] c1].
    + destruct (wipe_old_indexes options).
      * cbn [cluster stdout requests].
        destruct (es_delete _ c1) as [[[]|e] c2]; cbn [cluster stdout requests snd].
        -- now rewrite <- !app_assoc.
        -- destruct e; try (now rewrite <- !app_assoc).
           destruct (es_update_aliases _ c2) as [res c3].
           cbn [snd requests]. now rewrite <- !app_assoc.
      * cbn [snd requests]. now rewrite <- !app_assoc.
    + destruct e; cbn [snd requests cluster stdout]; try (now rewrite <- !app_assoc).
      destruct (es_update_aliases _ c1) as [res c2].
      cbn [snd requests]. now rewrite <- !app_assoc.
  - destruct e; try reflexivity.
    unfold indices_update_aliases. rewrite call_requests.
    cbn [wildcard_started log write requests]. now rewrite <- app_assoc.
Qed.

End Sent.

(** ** The alias stage, family by family *)

Section Stage.
Context {ES : Type} `{Elasticsearch ES}.

Lemma for_each_app {B : Type} (pre post : list B) (x : B) (body : B -> M ES unit)
    (w : world ES) :
  for_each (pre ++ x :: post) body w =
  match for_each pre body w with
  | (Ok _, w0) =>
      match body x w0 with
      | (Ok _, w1) => for_each post body w1
      | (Raise e, w1) => (Raise e, w1)
      end
  | (Raise e, w0) => (Raise e, w0)
  end.
Proof.
  revert w. induction pre as [|y pre IH]; intros w.
  - cbn [app for_each]. unfold ret, bind. now destruct (body x w) as [[[]|e] w1].
  - cbn [app for_each]. unfold bind.
    destruct (body y w) as [[[]|e] w1]; [apply IH | reflexivity].
Qed.

Variables (index : index) (options : Options).

(** The fixed update reads the wildcard alias and then only handles the
    indexes of the answer. *)
Lemma fixed_requests (w : world ES) :
  exists rs,
    requests (_update_fixed_indexes index options w).2
    = requests w ++ GetAlias (wildcard_alias_name index options) :: rs
    /\ match es_get_alias (wildcard_alias_name index options) (cluster w) with
       | Ok answer => Forall (fixed_request index options (keys answer)) rs
       | Raise _ => rs = []
       end.
Proof.
  rewrite fixed_run.
  destruct (es_get_alias _ (cluster w)) as [answer|e].
  - destruct (keys answer) as [|first rest] eqn:Hkeys.
    + exists []. split; [reflexivity | constructor].
    + destruct (Py.startswith first _).
      * destruct (fixed_loop_requests index options (first :: rest)
                    (fixed_started index options w)) as (rs & Hrs & Hall).
        exists rs. split; [|exact Hall].
        unfold try_except_NotFoundError, raise.
        destruct (for_each _ _ _) as [[[]|e] w1]; [| destruct e];
          cbn [snd] in *; rewrite Hrs;
          cbn [fixed_started log write requests]; now rewrite <- app_assoc.
      * exists []. split; [reflexivity | constructor].
  - exists []. split; [|reflexivity]. now destruct e.
Qed.

End Stage.

(** * The properties *)

Section Properties.
Context {ES : Type} `{Elasticsearch ES}.
Variables (index : index) (options : Options).

Local Abbreviation a := (wildcard_alias_name index options).
Local Abbreviation p := (target_pattern index options).
Local Abbreviation id := (str (index_base_id options)).

(** C9.  When the alias read succeeds with an empty answer, the wildcard
    update and the fixed update both raise [IndexError] from [l[0]]: only
    the read has been sent, the cluster is untouched, and neither the skip
    branch nor the create branch is taken. *)
Theorem empty_answer_raises_IndexError (w : world ES) (answer : alias_response) :
  es_get_alias a (cluster w) = Ok answer ->
  keys answer = [] ->
  _update_wildcard_indexes index options w =
    (Raise IndexError,
     World (cluster w) (stdout w ++ [wildcard_banner index options])
       (requests w ++ [GetAlias a]))
  /\ _update_fixed_indexes index options w =
    (Raise IndexError,
     World (cluster w) (stdout w ++ [fixed_banner index options])
       (requests w ++ [GetAlias a])).
Proof.
  intros Hget Hkeys. split.
  - now rewrite wildcard_run, Hget, Hkeys.
  - now rewrite fixed_run, Hget, Hkeys.
Qed.

(** C10, amended.  The same-run checks are a bare prefix test on the first
    resolved index: whenever its name is the decimal string of the run
    identifier followed by anything at all, the wildcard update only reads
    the alias (no swap, no delete) and the fixed update goes on to alias
    every resolved index. *)
Theorem same_run_check_is_a_bare_prefix (w : world ES) (answer : alias_response)
    (tail : string) (rest : list string) :
  es_get_alias a (cluster w) = Ok answer ->
  keys answer = (id +:+ tail) :: rest ->
  _update_wildcard_indexes index options w =
    (Ok tt,
     World (cluster w)
       (stdout w ++ [wildcard_banner index options;
                     "Old Indexes also match current index_base_id, skipping Alias update"])
       (requests w ++ [GetAlias a]))
  /\ _update_fixed_indexes index options w =
    try_except_NotFoundError
      (for_each ((id +:+ tail) :: rest) (_update_fixed_index index options))
      (raise IndexError)
      (World (cluster w) (stdout w ++ [fixed_banner index options])
         (requests w ++ [GetAlias a])).
Proof.
  intros Hget Hkeys. split.
  - eapply wildcard_skips; eauto using startswith_append.
  - erewrite fixed_proceeds; eauto using startswith_append.
Qed.

(** C5.  The requests of a wildcard-alias transition.  When the alias does
    not exist the update sends, after the read, one alias mutation with the
    single action [add alias -> pattern], and nothing else.  When the first
    resolved index is of another run it sends one mutation that removes the
    alias from every resolved index and adds the pattern; a further
    mutation follows only when that request or the delete answers
    not-found, and it is the bare [add] again, never a removal on its
    own. *)
Theorem wildcard_transition_is_one_request (w : world ES) :
  (es_get_alias a (cluster w) = Raise NotFoundError ->
   requests (_update_wildcard_indexes index options w).2
   = requests w ++ [GetAlias a; UpdateAliases [Add a p]])
  /\ (forall answer first rest,
        es_get_alias a (cluster w) = Ok answer ->
        keys answer = first :: rest ->
        Py.startswith first id = false ->
        let swap := [Remove a (keys answer); Add a p] in
        let gc := Delete (Py.join "," (keys answer)) in
        requests (_update_wildcard_indexes index options w).2
        = requests w ++ GetAlias a :: UpdateAliases swap ::
            match es_update_aliases swap (cluster w) with
            | (Raise NotFoundError, _) => [UpdateAliases [Add a p]]
            | (Raise _, _) => []
            | (Ok _, c1) =>
                if wipe_old_indexes options then
                  match es_delete (Py.join "," (keys answer)) c1 with
                  | (Raise NotFoundError, _) => [gc; UpdateAliases [Add a p]]
                  | _ => [gc]
                  end
                else []
            end).
Proof.
  split.
  - intros Hget. rewrite wildcard_requests. unfold after_read. now rewrite Hget.
  - intros answer first rest Hget Hkeys Hsw. cbv zeta.
    rewrite wildcard_requests. unfold after_read, after_swap.
    rewrite Hget, Hkeys, Hsw. reflexivity.
Qed.

(** C2, amended.  Garbage collection names exactly the indexes the wildcard
    alias resolved to before the swap, all of them, and only the first of
    them is known not to start with the run identifier; it is sent only
    when it is enabled and right after the combined remove-and-add request
    has succeeded. *)
Theorem garbage_collection_follows_the_swap (w : world ES) (sent : list request)
    (j : string) :
  requests (_update_wildcard_indexes index options w).2 = requests w ++ sent ->
  In (Delete j) sent ->
  exists answer first rest c1 tail,
    es_get_alias a (cluster w) = Ok answer
    /\ keys answer = first :: rest
    /\ Py.startswith first id = false
    /\ wipe_old_indexes options = true
    /\ es_update_aliases [Remove a (keys answer); Add a p] (cluster w) = (Ok tt, c1)
    /\ j = Py.join "," (keys answer)
    /\ sent = GetAlias a
              :: UpdateAliases [Remove a (keys answer); Add a p]
              :: Delete j :: tail.
Proof.
  rewrite wildcard_requests. intros Hsent Hin.
  apply app_inv_head in Hsent. subst sent.
  unfold after_read, after_swap in Hin.
  destruct (es_get_alias a (cluster w)) as [answer|e] eqn:Hget;
    [|destruct e; cbn [In] in Hin; intuition discriminate].
  destruct (keys answer) as [|first rest] eqn:Hkeys; [cbn [In] in Hin; intuition discriminate|].
  destruct (Py.startswith first id) eqn:Hsw; [cbn [In] in Hin; intuition discriminate|].
  destruct (es_update_aliases _ (cluster w)) as [[[]|e] c1] eqn:Hswap;
    [|destruct e; cbn [In] in Hin; intuition discriminate].
  destruct (wipe_old_indexes options) eqn:Hwipe; [|cbn [In] in Hin; intuition discriminate].
  assert (Hj : j = Py.join "," (first :: rest)).
  { destruct (es_delete _ c1) as [[[]|e] c2]; [| destruct e];
      cbn [In] in Hin; intuition congruence. }
  subst j.
  exists answer, first, rest, c1.
  unfold after_read, after_swap. rewrite Hget, Hkeys, Hsw, Hswap, Hwipe.
  destruct (es_delete _ c1) as [[[]|e] c2]; [| destruct e]; eexists;
    repeat split; reflexivity.
Qed.

End Properties.

Section Pipeline.
Context {ES : Type} `{Elasticsearch ES}.
Variables (registry : Registry) (options : Options).

(** C6.  For every family of the alias stage, the families before it are
    done first, then its wildcard update runs to its end, then its fixed
    update starts from the world the wildcard update left, and is not run
    at all when the wildcard update raised.  The fixed update first reads
    the wildcard alias and then sends nothing but reads and updates of the
    fixed aliases of the indexes in that answer. *)
Theorem wildcard_completes_before_fixed (models : list model)
    (pre post : list index) (index : index) (w : world ES) :
  get_indices registry models = pre ++ index :: post ->
  let family := fun index =>
    _update_wildcard_indexes index options ;; _update_fixed_indexes index options in
  _update_alias registry models options w =
    match for_each pre family w with
    | (Raise e, w0) => (Raise e, w0)
    | (Ok _, w0) =>
        match _update_wildcard_indexes index options w0 with
        | (Raise e, w1) => (Raise e, w1)
        | (Ok _, w1) =>
            match _update_fixed_indexes index options w1 with
            | (Raise e, w2) => (Raise e, w2)
            | (Ok _, w2) => for_each post family w2
            end
        end
    end
  /\ forall w1 : world ES,
       exists rs,
         requests (_update_fixed_indexes index options w1).2
         = requests w1 ++ GetAlias (wildcard_alias_name index options) :: rs
         /\ match es_get_alias (wildcard_alias_name index options) (cluster w1) with
            | Ok answer => Forall (fixed_request index options (keys answer)) rs
            | Raise _ => rs = []
            end.
Proof.
  intros Hfamilies family. split; [|apply fixed_requests].
  unfold _update_alias. rewrite Hfamilies, for_each_app. fold family.
  destruct (for_each pre family w) as [[[]|e] w0]; [|reflexivity].
  unfold family at 1, bind.
  destruct (_update_wildcard_indexes index options w0) as [[[]|e] w1]; [|reflexivity].
  now destruct (_update_fixed_indexes index options w1) as [[[]|e] w2].
Qed.

(** C7.  When a selector of the list matches no registered model, [handle]
    raises the [CommandError] that names the first such selector, in lower
    case as it was compared, and leaves the world as it was: nothing is
    written and no request is sent. *)
Theorem unknown_selector_stops_the_run (args : list string) (w : world ES) :
  models options = Some args ->
  (exists selector, In selector args /\ known registry selector = false) ->
  exists pre selector post,
    args = pre ++ selector :: post
    /\ forallb (known registry) pre = true
    /\ known registry selector = false
    /\ handle registry options w =
       (Raise (CommandError ("No model or app named " +:+ Py.lower selector)), w).
Proof.
  intros Hargs (bad & Hin & Hbad).
  assert (Hsome : forallb (known registry) args = false).
  { destruct (forallb (known registry) args) eqn:Hall; [|reflexivity].
    rewrite forallb_forall in Hall. now rewrite (Hall bad Hin) in Hbad. }
  destruct (first_unknown registry args Hsome) as (pre & sel & post & -> & Hpre & Hsel).
  exists pre, sel, post. repeat split; auto.
  unfold handle, _get_models. rewrite Hargs. unfold bind at 1 2.
  assert (Hrun : forall models0,
            _get_models_args registry (pre ++ sel :: post) models0 w
            = (Raise (CommandError ("No model or app named " +:+ Py.lower sel)), w))
    by (intros; now apply _get_models_args_unknown).
  destruct (pre ++ sel :: post) as [|arg args'] eqn:Hlist.
  - now destruct pre.
  - now rewrite Hrun.
Qed.

End Pipeline.

Section Reference.
Import RefCluster RefFacts Scenario.

(** C1, amended.  On the reference cluster, for a stage of one family and
    an integer run identifier: when the alias stage has succeeded and no
    index of the cluster has the wildcard alias's name as its fixed alias,
    running the stage again with the same options succeeds and leaves the
    cluster, hence every alias, as the first run left it.  On that second
    run the first index the wildcard alias resolves to starts with the run
    identifier, the wildcard update sends its alias read and nothing else
    (first request), and the fixed update sends its read of the wildcard
    alias (second request) and then only reads and updates of fixed
    aliases: no wildcard-alias mutation and no delete. *)
Theorem alias_stage_twice_is_once (registry : Registry) (models : list model)
    (options : Options) (index : index) (n : Z) (w w1 : world RefCluster.t) :
  get_indices registry models = [index] ->
  index_base_id options = IdInt n ->
  (forall c, In c (map fst (indices (cluster w))) ->
     fixed_alias_name index options c <> wildcard_alias_name index options) ->
  _update_alias registry models options w = (Ok tt, w1) ->
  exists w2 rs first rest,
    _update_alias registry models options w1 = (Ok tt, w2)
    /\ cluster w2 = cluster w1
    /\ resolve (wildcard_alias_name index options) (cluster w1) = first :: rest
    /\ Py.startswith first (str (index_base_id options)) = true
    /\ requests w2
       = requests w1 ++ GetAlias (wildcard_alias_name index options)
           :: GetAlias (wildcard_alias_name index options) :: rs
    /\ Forall (fixed_request index options (first :: rest)) rs.
Proof.
  intros Hfamily Hid Hfresh. unfold _update_alias. rewrite Hfamily.
  cbn [for_each]. unfold bind, ret.
  destruct (_update_wildcard_indexes index options w) as [[[]|e] wa] eqn:Hwild;
    [|discriminate].
  destruct (_update_fixed_indexes index options wa) as [[[]|e] w1'] eqn:Hfixed;
    [|discriminate].
  intros [= <-].
  assert (Hstar : star_free (str (index_base_id options)) = true)
    by (rewrite Hid; apply str_int_star_free).
  destruct (family_rerun index options w wa w1' Hstar Hfresh Hwild Hfixed)
    as (wb & w2 & rs & -> & Hcb & Hrb & -> & Hc2 & Hr2 & Hall & first & rest & HW & Hsw).
  exists w2, rs, first, rest. repeat split; auto.
  - rewrite Hr2, Hrb, <- app_assoc. reflexivity.
  - now rewrite <- HW.
Qed.

(** C4.  Family [book], run 1000, the wildcard alias [book_r_wildcard] on
    the single index [999-book-novel]: the alias stage sends the combined
    request that moves the wildcard alias to [1000-book-*], after which
    that alias and the fixed alias [book_r-novel] both resolve to exactly
    [1000-book-novel]; [999-book-novel] is deleted when old indexes are
    wiped and kept when they are not. *)
Theorem book_scenario (wipe had_fixed : bool) :
  exists w',
    _update_alias (registry [book]) [novel] (options wipe) (start (before had_fixed))
    = (Ok tt, w')
    /\ In (UpdateAliases [Remove "book_r_wildcard" ["999-book-novel"];
                          Add "book_r_wildcard" "1000-book-*"]) (requests w')
    /\ resolve "book_r_wildcard" (cluster w') = ["1000-book-novel"]
    /\ resolve "book_r-novel" (cluster w') = ["1000-book-novel"]
    /\ map fst (indices (cluster w'))
       = (if wipe then ["1000-book-novel"] else ["999-book-novel"; "1000-book-novel"])
    /\ (In (Delete "999-book-novel") (requests w') <-> wipe = true).
Proof.
  destruct wipe, had_fixed; eexists; (split; [vm_compute; reflexivity|]);
    vm_compute; intuition congruence.
Qed.

(** C3.  With no wildcard alias on the cluster the fixed update raises
    [IndexError]: the handler of the not-found answer formats its log line
    with the field [{1}] and one argument.  Nothing but the alias read has
    been sent and the line is not written. *)
Theorem missing_wildcard_alias_raises :
  resolve "book_r_wildcard" fresh = []
  /\ _update_fixed_indexes book (options true) (start fresh)
     = (Raise IndexError,
        World fresh
          ["Creating fixed Aliases for indexes found in book_r_wildcard 'book'"]
          [GetAlias "book_r_wildcard"]).
Proof. split; reflexivity. Qed.

(** C8.  A model whose app label is [Shop] is not found by the selector
    [Shop], nor by [shop]: the selector is lower-cased and the label is
    compared as written.  The qualified form is found whatever its case,
    since there both sides are lower-cased. *)
Theorem app_label_is_compared_as_written :
  let resolved := fun selector =>
    (_get_models shop_registry (Some [selector]) (start mixed)).1 in
  resolved "Shop" = Raise (CommandError "No model or app named shop")
  /\ resolved "shop" = Raise (CommandError "No model or app named shop")
  /\ resolved "SHOP.Book" = Ok [shop_book].
Proof. vm_compute. repeat split. Qed.

End Reference.

(** ** The claims that fail, at a concrete cluster *)

Section Counterexamples.
Import RefCluster Scenario.

(** C1 as stated fails.  Two families, the stage run twice with the same
    options.  The first run succeeds; it leaves the wildcard alias of
    [book] on an index of run 999 followed by one of run 1000.  The second
    run then swaps the alias and deletes both indexes, the one of run 1000
    included, and ends in [IndexError] with the alias gone. *)
Lemma rerun_with_entangled_families :
  let stage := _update_alias (registry [book; shop]) [novel] (options true) in
  let once := stage (start entangled) in
  let twice := stage once.2 in
  once.1 = Ok tt
  /\ resolve "book_r_wildcard" (cluster once.2) = ["999-book-z"; "1000-book-c"]
  /\ Py.startswith "1000-book-c" (str (IdInt 1000)) = true
  /\ twice.1 = Raise IndexError
  /\ requests twice.2
     = requests once.2
         ++ [GetAlias "book_r_wildcard";
             UpdateAliases [Remove "book_r_wildcard" ["999-book-z"; "1000-book-c"];
                            Add "book_r_wildcard" "1000-book-*"];
             Delete "999-book-z,1000-book-c";
             GetAlias "book_r_wildcard"]
  /\ resolve "book_r_wildcard" (cluster twice.2) = [].
Proof. vm_compute. repeat split. Qed.

(** C2 as stated fails.  The wildcard alias resolves to an index of run 999
    and then to one of run 1000; only the first is checked, and the delete
    names both: the index of the current run is gone. *)
Lemma garbage_collection_takes_a_current_index :
  let w' := (_update_wildcard_indexes book (options true) (start mixed)).2 in
  resolve "book_r_wildcard" mixed = ["999-book-a"; "1000-book-b"]
  /\ Py.startswith "1000-book-b" (str (IdInt 1000)) = true
  /\ requests w'
     = [GetAlias "book_r_wildcard";
        UpdateAliases [Remove "book_r_wildcard" ["999-book-a"; "1000-book-b"];
                       Add "book_r_wildcard" "1000-book-*"];
        Delete "999-book-a,1000-book-b"]
  /\ map fst (indices (cluster w')) = [].
Proof. vm_compute. repeat split. Qed.

(** C10 as stated fails.  [10001-book-x] begins with the digits of run 1000
    but is resolved second: the wildcard update swaps and deletes, and the
    fixed update takes the indexes for another generation and skips. *)
Lemma later_run_in_second_place :
  let wildcard := _update_wildcard_indexes book (options true) (start later_run) in
  let fixed := _update_fixed_indexes book (options true) (start later_run) in
  resolve "book_r_wildcard" later_run = ["999-book-a"; "10001-book-x"]
  /\ Py.startswith "10001-book-x" (str (IdInt 1000)) = true
  /\ requests wildcard.2
     = [GetAlias "book_r_wildcard";
        UpdateAliases [Remove "book_r_wildcard" ["999-book-a"; "10001-book-x"];
                       Add "book_r_wildcard" "1000-book-*"];
        Delete "999-book-a,10001-book-x"]
  /\ fixed.1 = Ok tt
  /\ stdout fixed.2
     = ["Creating fixed Aliases for indexes found in book_r_wildcard 'book'";
        "Current Indexes don't match the current index_base_id, skipping Alias update"]
  /\ requests fixed.2 = [GetAlias "book_r_wildcard"].
Proof. vm_compute. repeat split. Qed.

(** The condition on alias names in the amended C1 is needed: with the
    suffixes [_w] and [_] the fixed alias of the index [w] is the wildcard
    alias [book_w]; the first run moves it onto [w] alone, and the second
    run, finding no index of run 1000 first, swaps it and deletes [w]. *)
Example rerun_with_colliding_alias_names :
  let stage := _update_alias (registry [book]) [novel] short_options in
  let once := stage (start colliding) in
  let twice := stage once.2 in
  fixed_alias_name book short_options "w" = wildcard_alias_name book short_options
  /\ once.1 = Ok tt
  /\ resolve "book_w" (cluster once.2) = ["w"]
  /\ twice.1 = Ok tt
  /\ resolve "book_w" (cluster twice.2) = ["1000-book-x"]
  /\ map fst (indices (cluster twice.2)) = ["1000-book-x"].
Proof. vm_compute. repeat split. Qed.

End Counterexamples.

Section Settled.
Import RefCluster Scenario.

(** The first run of the book scenario leaves a settled cluster. *)
Example book_scenario_settles :
  settled (options true) [book]
    (cluster (_update_alias (registry [book]) [novel] (options true)
                (start (before true))).2).
Proof.
  intros family [<-|[]]. split.
  - exists "1000-book-novel", []. split; vm_compute; reflexivity.
  - intros n ix Hn Hix.
    assert (Hn' : n = "1000-book-novel")
      by (vm_compute in Hn; destruct Hn as [<-|[]]; reflexivity).
    subst n.
    assert (Hix' : ix = ("1000-book-novel", {[ "book_r_wildcard"; "book_r-novel" ]}))
      by (vm_compute in Hix; destruct Hix as [<-|[]]; vm_compute; reflexivity).
    subst ix. split; intros _.
    + vm_compute. reflexivity.
    + apply (proj1 (bool_decide_eq_true _)). vm_compute. reflexivity.
Qed.

End Settled.

(** ** The theorems at concrete inputs *)

Section Witnesses.
Import RefCluster Scenario.

Lemma empty_answer_raises_IndexError_witness :
  let w := start empty_answer in
  es_get_alias (wildcard_alias_name book (options true)) (cluster w) = Ok []
  /\ keys [] = []
  /\ (_update_wildcard_indexes book (options true) w).1 = Raise IndexError
  /\ (_update_fixed_indexes book (options true) w).1 = Raise IndexError.
Proof.
  cbv zeta. split; [reflexivity|]. split; [reflexivity|].
  destruct (empty_answer_raises_IndexError book (options true) (start empty_answer) [])
    as [Hwildcard Hfixed]; [reflexivity | reflexivity |].
  rewrite Hwildcard, Hfixed. split; reflexivity.
Defined.

Lemma same_run_check_is_a_bare_prefix_witness :
  let w := start run_10001 in
  let answer := [("10001-book-x", ["book_r_wildcard"])] in
  es_get_alias (wildcard_alias_name book (options true)) (cluster w) = Ok answer
  /\ keys answer = [str (IdInt 1000) +:+ "1-book-x"]
  /\ (_update_wildcard_indexes book (options true) w).1 = Ok tt
  /\ requests (_update_wildcard_indexes book (options true) w).2
     = [GetAlias "book_r_wildcard"].
Proof.
  cbv zeta. split; [reflexivity|]. split; [reflexivity|].
  destruct (same_run_check_is_a_bare_prefix book (options true) (start run_10001)
              [("10001-book-x", ["book_r_wildcard"])] "1-book-x" [])
    as [Hwildcard _]; [reflexivity | reflexivity |].
  rewrite Hwildcard. split; reflexivity.
Defined.

Lemma wildcard_transition_is_one_request_witness :
  es_get_alias (wildcard_alias_name book (options true)) fresh = Raise NotFoundError
  /\ requests (_update_wildcard_indexes book (options true) (start fresh)).2
     = [GetAlias "book_r_wildcard"; UpdateAliases [Add "book_r_wildcard" "1000-book-*"]]
  /\ es_get_alias (wildcard_alias_name book (options true)) (before true)
     = Ok [("999-book-novel", ["book_r_wildcard"])]
  /\ Py.startswith "999-book-novel" (str (IdInt 1000)) = false
  /\ requests (_update_wildcard_indexes book (options true) (start (before true))).2
     = [GetAlias "book_r_wildcard";
        UpdateAliases [Remove "book_r_wildcard" ["999-book-novel"];
                       Add "book_r_wildcard" "1000-book-*"];
        Delete "999-book-novel"].
Proof.
  assert (Hnone : es_get_alias (wildcard_alias_name book (options true))
                    (cluster (start fresh)) = Raise NotFoundError)
    by (vm_compute; reflexivity).
  assert (Hold : es_get_alias (wildcard_alias_name book (options true))
                   (cluster (start (before true)))
                 = Ok [("999-book-novel", ["book_r_wildcard"])])
    by (vm_compute; reflexivity).
  assert (Hsw : Py.startswith "999-book-novel" (str (index_base_id (options true)))
                = false)
    by (vm_compute; reflexivity).
  split; [exact Hnone|]. split.
  - rewrite (proj1 (wildcard_transition_is_one_request book (options true)
                      (start fresh)) Hnone).
    reflexivity.
  - split; [exact Hold|]. split; [exact Hsw|].
    rewrite (proj2 (wildcard_transition_is_one_request book (options true)
                      (start (before true)))
               [("999-book-novel", ["book_r_wildcard"])] "999-book-novel" []
               Hold eq_refl Hsw).
    vm_compute. reflexivity.
Defined.

Lemma garbage_collection_follows_the_swap_witness :
  let w := start (before true) in
  let sent := [GetAlias "book_r_wildcard";
               UpdateAliases [Remove "book_r_wildcard" ["999-book-novel"];
                              Add "book_r_wildcard" "1000-book-*"];
               Delete "999-book-novel"] in
  requests (_update_wildcard_indexes book (options true) w).2 = requests w ++ sent
  /\ In (Delete "999-book-novel") sent
  /\ exists answer first rest,
       es_get_alias (wildcard_alias_name book (options true)) (cluster w) = Ok answer
       /\ keys answer = first :: rest
       /\ Py.startswith first (str (IdInt 1000)) = false
       /\ "999-book-novel" = Py.join "," (keys answer).
Proof.
  cbv zeta. split; [reflexivity|]. split; [cbn; auto|].
  destruct (garbage_collection_follows_the_swap book (options true)
              (start (before true))
              [GetAlias "book_r_wildcard";
               UpdateAliases [Remove "book_r_wildcard" ["999-book-novel"];
                              Add "book_r_wildcard" "1000-book-*"];
               Delete "999-book-novel"]
              "999-book-novel")
    as (answer & first & rest & c1 & tail & Hget & Hkeys & Hsw & _ & _ & Hj & _);
    [reflexivity | cbn; auto |].
  exists answer, first, rest. auto.
Defined.

Lemma wildcard_completes_before_fixed_witness :
  let w := start (before true) in
  get_indices (registry [shop; book]) [novel] = [shop] ++ book :: []
  /\ forall w1 : world RefCluster.t,
       exists rs,
         requests (_update_fixed_indexes book (options true) w1).2
         = requests w1 ++ GetAlias "book_r_wildcard" :: rs.
Proof.
  cbv zeta. split; [reflexivity|].
  destruct (wildcard_completes_before_fixed (registry [shop; book]) (options true)
              [novel] [shop] [] book (start (before true))) as [_ Hfixed];
    [reflexivity|].
  intros w1. destruct (Hfixed w1) as (rs & Hrs & _). now exists rs.
Defined.

Lemma unknown_selector_stops_the_run_witness :
  let w := start fresh in
  models (options_selecting ["library"; "Shop"]) = Some ["library"; "Shop"]
  /\ (exists selector,
        In selector ["library"; "Shop"] /\ known (registry [book]) selector = false)
  /\ exists pre selector post,
       ["library"; "Shop"] = pre ++ selector :: post
       /\ handle (registry [book]) (options_selecting ["library"; "Shop"]) w
          = (Raise (CommandError ("No model or app named " +:+ Py.lower selector)), w).
Proof.
  cbv zeta. split; [reflexivity|].
  assert (Hbad : exists selector,
            In selector ["library"; "Shop"] /\ known (registry [book]) selector = false)
    by (exists "Shop"; split; [cbn; auto | reflexivity]).
  split; [exact Hbad|].
  destruct (unknown_selector_stops_the_run (registry [book])
              (options_selecting ["library"; "Shop"]) ["library"; "Shop"]
              (start fresh) eq_refl Hbad)
    as (pre & selector & post & Hsplit & _ & _ & Hrun).
  exists pre, selector, post. auto.
Defined.

Lemma alias_stage_twice_is_once_witness :
  let stage := _update_alias (registry [book]) [novel] (options true) in
  let w := start (before true) in
  let w1 := (stage w).2 in
  get_indices (registry [book]) [novel] = [book]
  /\ index_base_id (options true) = IdInt 1000
  /\ (forall c, In c (map fst (indices (cluster w))) ->
        fixed_alias_name book (options true) c
        <> wildcard_alias_name book (options true))
  /\ stage w = (Ok tt, w1)
  /\ exists w2, stage w1 = (Ok tt, w2) /\ cluster w2 = cluster w1.
Proof.
  cbv zeta.
  assert (Hfresh : forall c,
            In c (map fst (indices (cluster (start (before true))))) ->
            fixed_alias_name book (options true) c
            <> wildcard_alias_name book (options true))
    by (intros c [<-|[<-|[]]]; vm_compute; discriminate).
  assert (Hrun : _update_alias (registry [book]) [novel] (options true)
                   (start (before true))
                 = (Ok tt, (_update_alias (registry [book]) [novel] (options true)
                              (start (before true))).2))
    by (vm_compute; reflexivity).
  split; [reflexivity|]. split; [reflexivity|]. split; [exact Hfresh|].
  split; [exact Hrun|].
  destruct (alias_stage_twice_is_once (registry [book]) [novel] (options true) book 1000
              (start (before true)) _ eq_refl eq_refl Hfresh Hrun)
    as (w2 & rs & first & rest & Hrun2 & Hcluster & _).
  exists w2. auto.
Defined.

End Witnesses.

(** * Further properties of the command *)

(** ** Model resolution *)

Section ResolverFacts.
Context {ES : Type} `{Elasticsearch ES}.
Variable registry : Registry.

Lemma lower_ascii_idempotent (c : ascii) :
  Py.lower_ascii (Py.lower_ascii c) = Py.lower_ascii c.
Proof. destruct c as [[] [] [] [] [] [] [] []]; reflexivity. Qed.

Lemma lower_idempotent (s : string) : Py.lower (Py.lower s) = Py.lower s.
Proof.
  induction s as [|c s IH]; [reflexivity|].
  cbn [Py.lower]. now rewrite lower_ascii_idempotent, IH.
Qed.

Lemma _get_models_args_known (args : list string) (models : list model)
    (w : world ES) :
  forallb (known registry) args = true ->
  _get_models_args registry args models w
  = (Ok (models ++ matched_models registry args), w).
Proof.
  revert models. induction args as [|arg args IH]; intros models Hknown.
  - cbn. now rewrite app_nil_r.
  - cbn [forallb] in Hknown. apply andb_true_iff in Hknown as [Harg Hargs].
    cbn [_get_models_args]. unfold bind at 1. rewrite _get_models_scan_run.
    fold (known registry arg). rewrite Harg. cbn [orb negb].
    rewrite (IH _ Hargs). unfold matched_models. cbn [flat_map].
    now rewrite <- app_assoc.
Qed.

Lemma _get_models_args_lower (args : list string) (models : list model)
    (w : world ES) :
  _get_models_args registry (map Py.lower args) models w
  = _get_models_args registry args models w.
Proof.
  revert models. induction args as [|arg args IH]; intros models; [reflexivity|].
  cbn [map _get_models_args]. rewrite lower_idempotent. unfold bind at 1 3.
  rewrite _get_models_scan_run.
  destruct (false || existsb _ _); cbn [negb]; [apply IH | reflexivity].
Qed.

(** X1.  When every selector of a non-empty list matches some registered
    model, resolution succeeds without touching the world, and the result
    holds each model once: exactly the registered models that some selector
    of the list matches, by app label as written or by lower-cased
    [app.model]. *)
Theorem known_selectors_resolve (args : list string) (w : world ES) :
  args <> [] ->
  forallb (known registry) args = true ->
  exists resolved,
    _get_models registry (Some args) w = (Ok resolved, w)
    /\ NoDup resolved
    /\ forall m,
         In m resolved <->
         In m (get_models registry)
         /\ exists selector,
              In selector args /\ selector_matches (Py.lower selector) m = true.
Proof.
  intros Hnonempty Hknown. destruct args as [|arg args]; [congruence|].
  unfold _get_models, bind. rewrite (_get_models_args_known _ _ _ Hknown).
  unfold ret. eexists. split; [reflexivity|]. split; [apply NoDup_remove_dups|].
  intros m. rewrite <- list_elem_of_In, elem_of_remove_dups, list_elem_of_In.
  cbn [app]. unfold matched_models. rewrite in_flat_map. split.
  - intros (selector & Hsel & Hm). apply filter_In in Hm as [Hm Hmatch]. eauto.
  - intros (Hm & selector & Hsel & Hmatch). exists selector. split; [exact Hsel|].
    apply filter_In. auto.
Qed.

(** X2.  Without selectors, absent or an empty list alike, resolution gives
    every registered model once and raises nothing. *)
Theorem no_selector_means_every_model (w : world ES) :
  let every := remove_dups (get_models registry) in
  _get_models registry None w = (Ok every, w)
  /\ _get_models registry (Some []) w = (Ok every, w)
  /\ NoDup every
  /\ forall m, In m every <-> In m (get_models registry).
Proof.
  cbv zeta. split; [reflexivity|]. split; [reflexivity|].
  split; [apply NoDup_remove_dups|].
  intros m. now rewrite <- !list_elem_of_In, elem_of_remove_dups.
Qed.

(** X3.  Resolution reads the selectors through [lower()] only: two selector
    lists that agree once lower-cased give the same result, error message
    included. *)
Theorem selectors_differing_in_case (args1 args2 : list string) (w : world ES) :
  map Py.lower args1 = map Py.lower args2 ->
  _get_models registry (Some args1) w = _get_models registry (Some args2) w.
Proof.
  intros Hlower.
  assert (Hargs : forall models,
            _get_models_args registry args1 models w
            = _get_models_args registry args2 models w)
    by (intros; now rewrite <- (_get_models_args_lower args1),
                  <- (_get_models_args_lower args2), Hlower).
  unfold _get_models, bind.
  destruct args1 as [|a1 args1], args2 as [|a2 args2]; try discriminate;
    [reflexivity|].
  now rewrite Hargs.
Qed.

End ResolverFacts.

(** ** The stages of [handle] *)

Section StageFacts.
Context {ES : Type} `{Elasticsearch ES}.
Variables (registry : Registry) (options : Options).

Lemma format_template_line (a : string) :
  format "Creating index template for '{}'" [a]
  = Ok ("Creating index template for '" +:+ a +:+ "'").
Proof. reflexivity. Qed.

Lemma format_indexing_line (a b c : string) :
  format "Indexing {} '{}' objects {}" [a; b; c]
  = Ok ("Indexing " +:+ a +:+ " '" +:+ b +:+ "' objects " +:+ c).
Proof. cbv [format]. simpl. now rewrite append_nil_r. Qed.

Lemma format_refresh_pattern (a : string) : format "{0}-*" [a] = Ok (a +:+ "-*").
Proof. reflexivity. Qed.

(** A loop whose every turn sends one request sends them in the order of
    the list, up to the turn that raises. *)
Lemma for_each_requests {B : Type} (req : B -> request) (body : B -> M ES unit) :
  (forall x w, requests (body x w).2 = requests w ++ [req x]) ->
  forall l w,
    exists k,
      k <= length l
      /\ requests (for_each l body w).2 = requests w ++ map req (take k l)
      /\ ((for_each l body w).1 = Ok tt -> k = length l).
Proof.
  intros Hbody l. induction l as [|x l IH]; intros w.
  - exists 0. cbn. rewrite app_nil_r. auto.
  - cbn [for_each]. unfold bind. specialize (Hbody x w).
    destruct (body x w) as [[[]|e] w1]; cbn [snd] in Hbody.
    + destruct (IH w1) as (k & Hk & Hrs & Hok).
      exists (S k). cbn [length take map]. split; [lia|]. split.
      * rewrite Hrs, Hbody, <- app_assoc. reflexivity.
      * intros Hres. now rewrite (Hok Hres).
    + exists 1. cbn [length take map snd fst]. split; [lia|]. split.
      * rewrite Hbody. now destruct l.
      * discriminate.
Qed.

(** A loop whose every turn sends requests of one kind sends requests of
    that kind. *)
Lemma for_each_kind {B : Type} (kind : request -> bool) (body : B -> M ES unit) :
  (forall x w, exists rs,
      requests (body x w).2 = requests w ++ rs /\ forallb kind rs = true) ->
  forall l w, exists rs,
      requests (for_each l body w).2 = requests w ++ rs /\ forallb kind rs = true.
Proof.
  intros Hbody l. induction l as [|x l IH]; intros w.
  - exists []. cbn. now rewrite app_nil_r.
  - cbn [for_each]. unfold bind. destruct (Hbody x w) as (rs1 & Hrs1 & Hk1).
    destruct (body x w) as [[[]|e] w1]; cbn [snd] in Hrs1.
    + destruct (IH w1) as (rs2 & Hrs2 & Hk2). exists (rs1 ++ rs2).
      rewrite Hrs2, Hrs1, <- app_assoc, forallb_app, Hk1, Hk2. auto.
    + exists rs1. auto.
Qed.

Lemma template_turn (doc : document) (w : world ES) :
  requests
    ((msg <- lift (format "Creating index template for '{}'" [_name (_index doc)]) ;;
      stdout_write msg ;;
      pattern <- lift (format "{0}-{1}-*"
                         [str (index_base_id options); _name (_index doc)]) ;;
      index_template_save (_name (_index doc)) pattern) w).2
  = requests w ++ [template_request options doc].
Proof.
  unfold bind, lift. rewrite format_template_line, format_pattern.
  unfold stdout_write, index_template_save. now rewrite call_requests.
Qed.

Lemma populate_turn (doc : document) (w : world ES) :
  requests
    ((msg <- lift (format "Indexing {} '{}' objects {}"
                     [ (if count options then Py.str_int (queryset_count doc) else "all");
                       __name__ (django_model doc);
                       (if parallel options then "(parallel)" else EmptyString) ]) ;;
      stdout_write msg ;;
      doc_update doc (parallel options) (index_base_id options)) w).2
  = requests w ++ [populate_request options doc].
Proof.
  unfold bind, lift. rewrite format_indexing_line.
  unfold stdout_write, doc_update. now rewrite call_requests.
Qed.

Lemma templates_sent (models : list model) (w : world ES) :
  exists k,
    k <= length (get_documents registry models)
    /\ requests (_create_index_templates registry models options w).2
       = requests w
           ++ map (template_request options) (take k (get_documents registry models))
    /\ ((_create_index_templates registry models options w).1 = Ok tt ->
        k = length (get_documents registry models)).
Proof.
  unfold _create_index_templates.
  apply (for_each_requests (template_request options)). apply template_turn.
Qed.

Lemma populate_sent (models : list model) (w : world ES) :
  exists k,
    k <= length (get_documents registry models)
    /\ requests (_reindex_as_new registry models options w).2
       = requests w
           ++ map (populate_request options) (take k (get_documents registry models))
    /\ ((_reindex_as_new registry models options w).1 = Ok tt ->
        k = length (get_documents registry models)).
Proof.
  unfold _reindex_as_new.
  apply (for_each_requests (populate_request options)). apply populate_turn.
Qed.

Lemma refresh_sent (models : list model) (w : world ES) :
  requests (_refresh_new_indexes models options w).2
  = requests w ++ [refresh_request options].
Proof.
  unfold _refresh_new_indexes, bind, lift. rewrite format_refresh_pattern.
  unfold indices_refresh. now rewrite call_requests.
Qed.

Lemma after_read_kind (index : index) (c : ES) :
  forallb alias_request (after_read index options c) = true.
Proof.
  unfold after_read, after_swap.
  destruct (es_get_alias _ c) as [answer|e]; [|now destruct e].
  destruct (keys answer) as [|first rest]; [reflexivity|].
  destruct (Py.startswith first _); [reflexivity|].
  destruct (es_update_aliases _ c) as [[[]|e] c1]; [|now destruct e].
  destruct (wipe_old_indexes options); [|reflexivity].
  destruct (es_delete _ c1) as [[[]|e] c2]; [reflexivity | now destruct e].
Qed.

Lemma fixed_request_kind (index : index) (l : list string) (rs : list request) :
  Forall (fixed_request index options l) rs -> forallb alias_request rs = true.
Proof.
  intros Hall. apply forallb_forall. intros r Hr.
  rewrite Forall_forall in Hall. apply list_elem_of_In in Hr.
  destruct (Hall r Hr) as (c & _ & [-> | [[old ->] | ->]]); reflexivity.
Qed.

Lemma family_sent (index : index) (w : world ES) :
  exists rs,
    requests
      ((_update_wildcard_indexes index options ;;
        _update_fixed_indexes index options) w).2
    = requests w ++ rs
    /\ forallb alias_request rs = true.
Proof.
  unfold bind. pose proof (wildcard_requests index options w) as Hw.
  destruct (_update_wildcard_indexes index options w) as [[[]|e] w1]; cbn [snd] in Hw.
  - destruct (fixed_requests index options w1) as (rs & Hrs & Hkind).
    exists ((GetAlias (wildcard_alias_name index options)
               :: after_read index options (cluster w))
            ++ GetAlias (wildcard_alias_name index options) :: rs).
    split; [rewrite Hrs, Hw, <- app_assoc; reflexivity|].
    rewrite forallb_app. cbn [forallb alias_request andb].
    rewrite after_read_kind. cbn [andb].
    destruct (es_get_alias _ (cluster w1)) as [answer|e]; [|now subst rs].
    now apply (fixed_request_kind index (keys answer)).
  - exists (GetAlias (wildcard_alias_name index options)
              :: after_read index options (cluster w)).
    split; [exact Hw|]. cbn [forallb alias_request andb]. apply after_read_kind.
Qed.

Lemma alias_stage_sent (models : list model) (w : world ES) :
  exists rs,
    requests (_update_alias registry models options w).2 = requests w ++ rs
    /\ forallb alias_request rs = true.
Proof.
  unfold _update_alias. apply (for_each_kind alias_request). apply family_sent.
Qed.

Lemma _get_models_args_world (args : list string) (models : list model)
    (w : world ES) :
  (_get_models_args registry args models w).2 = w.
Proof.
  revert models. induction args as [|arg args IH]; intros models; [reflexivity|].
  cbn [_get_models_args]. unfold bind at 1. rewrite _get_models_scan_run.
  destruct (negb _); [|apply IH].
  unfold bind, lift. now rewrite format_no_model.
Qed.

Lemma _get_models_world (args : option (list string)) (w : world ES) :
  (_get_models registry args w).2 = w.
Proof.
  unfold _get_models, bind.
  destruct args as [[|arg args]|]; try reflexivity.
  pose proof (_get_models_args_world (arg :: args) [] w) as Hw.
  destruct (_get_models_args registry (arg :: args) [] w) as [[resolved|e] w1];
    exact Hw.
Qed.

End StageFacts.

Section HandleFacts.
Context {ES : Type} `{Elasticsearch ES}.
Variables (registry : Registry) (options : Options).



(** X6.  A run of [handle] that returns normally has sent, in this order:
    the template saves of all documents, then the updates of all documents,
    then the one refresh of [{run_id}-*] when refreshing is asked for, then
    the requests of the alias stage, which only read or change aliases or
    delete indexes and are absent when the alias update is switched off. *)
Theorem handle_runs_the_stages_in_order (w w' : world ES) :
  handle registry options w = (Ok tt, w') ->
  exists resolved rs,
    _get_models registry (models options) w = (Ok resolved, w)
    /\ requests w'
       = requests w
           ++ map (template_request options) (get_documents registry resolved)
           ++ map (populate_request options) (get_documents registry resolved)
           ++ (if refresh_new_indexes options then [refresh_request options] else [])
           ++ rs
    /\ forallb alias_request rs = true
    /\ (alias options = false -> rs = []).
Proof.
  intros Hrun. unfold handle, bind in Hrun.
  pose proof (_get_models_world registry (models options) w) as Hw0.
  destruct (_get_models registry (models options) w) as [[resolved|e] w0];
    cbn [snd] in Hw0; subst w0; [|discriminate].
  destruct (templates_sent registry options resolved w) as (k1 & _ & Hr1 & Hk1).
  destruct (_create_index_templates registry resolved options w) as [[[]|e] w1];
    [|discriminate].
  cbn [fst snd] in Hr1, Hk1. rewrite (Hk1 eq_refl), firstn_all in Hr1.
  destruct (populate_sent registry options resolved w1) as (k2 & _ & Hr2 & Hk2).
  destruct (_reindex_as_new registry resolved options w1) as [[[]|e] w2];
    [|discriminate].
  cbn [fst snd] in Hr2, Hk2. rewrite (Hk2 eq_refl), firstn_all in Hr2.
  assert (Hrefresh : exists w3,
             (if refresh_new_indexes options
              then _refresh_new_indexes resolved options else ret tt) w2
             = (Ok tt, w3)
             /\ requests w3
                = requests w2
                    ++ (if refresh_new_indexes options
                        then [refresh_request options] else [])).
  { destruct (refresh_new_indexes options).
    - pose proof (refresh_sent options resolved w2) as Hr3.
      destruct (_refresh_new_indexes resolved options w2) as [[[]|e] w3];
        [|discriminate].
      exists w3. auto.
    - exists w2. cbn. now rewrite app_nil_r. }
  destruct Hrefresh as (w3 & Hstage3 & Hr3). rewrite Hstage3 in Hrun.
  exists resolved. destruct (alias options).
  - destruct (alias_stage_sent registry options resolved w3) as (rs & Hrs & Hkind).
    rewrite Hrun in Hrs. cbn [snd] in Hrs. exists rs.
    split; [reflexivity|]. split; [|split; [exact Hkind | discriminate]].
    rewrite Hrs, Hr3, Hr2, Hr1, <- !app_assoc. reflexivity.
  - injection Hrun as <-. exists [].
    split; [reflexivity|]. split; [|split; reflexivity].
    rewrite Hr3, Hr2, Hr1, <- !app_assoc, app_nil_r. reflexivity.
Qed.

(** X7.  With the alias update switched off, [handle] never reads or changes
    an alias and never deletes an index, whatever the cluster answers and
    whether the run ends normally or not. *)
Theorem no_update_alias_leaves_aliases_alone (w : world ES) :
  alias options = false ->
  exists rs,
    requests (handle registry options w).2 = requests w ++ rs
    /\ forallb (fun r => negb (alias_request r)) rs = true.
Proof.
  intros Hoff. unfold handle, bind. rewrite Hoff.
  pose proof (_get_models_world registry (models options) w) as Hw0.
  destruct (_get_models registry (models options) w) as [[resolved|e] w0];
    cbn [snd] in Hw0; subst w0; [|exists []; cbn; now rewrite app_nil_r].
  assert (Htemplates : forall l,
            forallb (fun r => negb (alias_request r)) (map (template_request options) l)
            = true)
    by (intros l; induction l; auto).
  assert (Hupdates : forall l,
            forallb (fun r => negb (alias_request r)) (map (populate_request options) l)
            = true)
    by (intros l; induction l; auto).
  destruct (templates_sent registry options resolved w) as (k1 & _ & Hr1 & _).
  destruct (_create_index_templates registry resolved options w) as [[[]|e] w1];
    cbn [snd] in Hr1; [|eexists; split; [exact Hr1 | apply Htemplates]].
  destruct (populate_sent registry options resolved w1) as (k2 & _ & Hr2 & _).
  destruct (_reindex_as_new registry resolved options w1) as [[[]|e] w2];
    cbn [snd] in *;
    [|eexists; split; [rewrite Hr2, Hr1, <- app_assoc; reflexivity|];
      now rewrite forallb_app, Htemplates, Hupdates].
  destruct (refresh_new_indexes options).
  - pose proof (refresh_sent options resolved w2) as Hr3.
    destruct (_refresh_new_indexes resolved options w2) as [[[]|e] w3];
      unfold ret; cbn [snd] in *;
      (eexists; split; [rewrite Hr3, Hr2, Hr1, <- !app_assoc; reflexivity|];
       now rewrite !forallb_app, Htemplates, Hupdates).
  - unfold ret. cbn [snd]. eexists.
    split; [rewrite Hr2, Hr1, <- app_assoc; reflexivity|].
    now rewrite forallb_app, Htemplates, Hupdates.
Qed.

End HandleFacts.

(** ** The alias updates, on any client *)

Section UpdateFacts.
Context {ES : Type} `{Elasticsearch ES}.
Variables (index : index) (options : Options).

Local Abbreviation a := (wildcard_alias_name index options).
Local Abbreviation id := (str (index_base_id options)).

Lemma after_read_keeps (c : ES) :
  wipe_old_indexes options = false ->
  forallb not_delete (after_read index options c) = true.
Proof.
  intros Hoff. unfold after_read, after_swap. rewrite Hoff.
  destruct (es_get_alias _ c) as [answer|e]; [|now destruct e].
  destruct (keys answer) as [|first rest]; [reflexivity|].
  destruct (Py.startswith first _); [reflexivity|].
  destruct (es_update_aliases _ c) as [[[]|e] c1]; [reflexivity | now destruct e].
Qed.

Lemma fixed_request_keeps (l : list string) (rs : list request) :
  Forall (fixed_request index options l) rs -> forallb not_delete rs = true.
Proof.
  intros Hall. apply forallb_forall. intros r Hr.
  rewrite Forall_forall in Hall. apply list_elem_of_In in Hr.
  destruct (Hall r Hr) as (c & _ & [-> | [[old ->] | ->]]); reflexivity.
Qed.

Lemma family_keeps (w : world ES) :
  wipe_old_indexes options = false ->
  exists rs,
    requests
      ((_update_wildcard_indexes index options ;;
        _update_fixed_indexes index options) w).2
    = requests w ++ rs
    /\ forallb not_delete rs = true.
Proof.
  intros Hoff. unfold bind. pose proof (wildcard_requests index options w) as Hw.
  destruct (_update_wildcard_indexes index options w) as [[[]|e] w1]; cbn [snd] in Hw.
  - destruct (fixed_requests index options w1) as (rs & Hrs & Hkind).
    exists ((GetAlias a :: after_read index options (cluster w)) ++ GetAlias a :: rs).
    split; [rewrite Hrs, Hw, <- app_assoc; reflexivity|].
    rewrite forallb_app. cbn [forallb not_delete andb].
    rewrite (after_read_keeps _ Hoff). cbn [andb].
    destruct (es_get_alias _ (cluster w1)) as [answer|e]; [|now subst rs].
    now apply (fixed_request_keeps (keys answer)).
  - exists (GetAlias a :: after_read index options (cluster w)).
    split; [exact Hw|]. cbn [forallb not_delete andb]. now apply after_read_keeps.
Qed.

(** X9.  When the first index the wildcard alias resolves to does not start
    with the run identifier, the fixed update takes the alias for another
    generation: it writes that it skips, returns normally, and has sent
    nothing but the alias read. *)
Theorem fixed_skips_another_generation (w : world ES) (answer : alias_response)
    (first : string) (rest : list string) :
  es_get_alias a (cluster w) = Ok answer ->
  keys answer = first :: rest ->
  Py.startswith first id = false ->
  _update_fixed_indexes index options w =
  (Ok tt,
   World (cluster w)
     (stdout w ++ [fixed_banner index options;
        "Current Indexes don't match the current index_base_id, skipping Alias update"])
     (requests w ++ [GetAlias a])).
Proof.
  intros Hget Hkeys Hsw. rewrite fixed_run, Hget, Hkeys, Hsw.
  unfold write, fixed_started, log, write. cbn [cluster stdout requests].
  now rewrite <- app_assoc.
Qed.

(** X10.  An error of the alias read other than not-found is not handled:
    the wildcard update and the fixed update both raise it as it is, having
    sent the read only and left the cluster alone. *)
Theorem alias_read_error_propagates (w : world ES) (e : exn) :
  es_get_alias a (cluster w) = Raise e ->
  e <> NotFoundError ->
  _update_wildcard_indexes index options w =
    (Raise e,
     World (cluster w) (stdout w ++ [wildcard_banner index options])
       (requests w ++ [GetAlias a]))
  /\ _update_fixed_indexes index options w =
    (Raise e,
     World (cluster w) (stdout w ++ [fixed_banner index options])
       (requests w ++ [GetAlias a])).
Proof.
  intros Hget Hother. split.
  - rewrite wildcard_run, Hget. now destruct e.
  - rewrite fixed_run, Hget. now destruct e.
Qed.

(** X11.  One turn of the fixed-alias loop.  When the fixed alias does not
    exist the turn sends, after the read, one update with the single action
    that adds the alias to the current index.  When it exists, whatever it
    resolves to, the turn sends one update that removes it from every index
    of the answer and adds it to the current index; only when that update
    answers not-found does the bare add follow. *)
Theorem fixed_alias_is_created_or_replaced (current_index : string) (w : world ES) :
  let alias := fixed_alias_name index options current_index in
  (es_get_alias alias (cluster w) = Raise NotFoundError ->
   requests (_update_fixed_index index options current_index w).2
   = requests w ++ [GetAlias alias; UpdateAliases [Add alias current_index]])
  /\ (forall answer,
        es_get_alias alias (cluster w) = Ok answer ->
        let swap := [Remove alias (keys answer); Add alias current_index] in
        requests (_update_fixed_index index options current_index w).2
        = requests w ++ GetAlias alias :: UpdateAliases swap ::
            match es_update_aliases swap (cluster w) with
            | (Raise NotFoundError, _) => [UpdateAliases [Add alias current_index]]
            | _ => []
            end).
Proof.
  cbv zeta. split.
  - intros Hget. rewrite fixed_index_run. cbv zeta. rewrite Hget.
    unfold indices_update_aliases. rewrite call_requests.
    cbn [log write requests]. now rewrite <- app_assoc.
  - intros answer Hget. rewrite fixed_index_run. cbv zeta. rewrite Hget.
    unfold try_except_NotFoundError, indices_update_aliases, call.
    cbn [log write cluster stdout requests].
    destruct (es_update_aliases _ (cluster w)) as [[[]|e] c1];
      [cbn [snd requests]; now rewrite <- app_assoc|].
    destruct e; cbn [snd requests cluster stdout]; try (now rewrite <- app_assoc).
    destruct (es_update_aliases _ c1) as [res c2].
    cbn [snd requests]. now rewrite <- !app_assoc.
Qed.

End UpdateFacts.

Section WipeFacts.
Context {ES : Type} `{Elasticsearch ES}.
Variables (registry : Registry) (options : Options).

(** X8.  With [wipe_old_indexes] off, [handle] never asks for the deletion
    of an index, whatever the cluster answers and however the run ends. *)
Theorem wipe_off_never_deletes (w : world ES) :
  wipe_old_indexes options = false ->
  exists rs,
    requests (handle registry options w).2 = requests w ++ rs
    /\ forallb not_delete rs = true.
Proof.
  intros Hoff. unfold handle, bind.
  pose proof (_get_models_world registry (models options) w) as Hw0.
  destruct (_get_models registry (models options) w) as [[resolved|e] w0];
    cbn [snd] in Hw0; subst w0; [|exists []; cbn; now rewrite app_nil_r].
  assert (Htemplates : forall l,
            forallb not_delete (map (template_request options) l) = true)
    by (intros l; induction l; auto).
  assert (Hupdates : forall l,
            forallb not_delete (map (populate_request options) l) = true)
    by (intros l; induction l; auto).
  destruct (templates_sent registry options resolved w) as (k1 & _ & Hr1 & _).
  destruct (_create_index_templates registry resolved options w) as [[[]|e] w1];
    cbn [snd] in *; [|eexists; split; [exact Hr1 | apply Htemplates]].
  destruct (populate_sent registry options resolved w1) as (k2 & _ & Hr2 & _).
  destruct (_reindex_as_new registry resolved options w1) as [[[]|e] w2];
    cbn [snd] in *;
    [|eexists; split; [rewrite Hr2, Hr1, <- app_assoc; reflexivity|];
      now rewrite forallb_app, Htemplates, Hupdates].
  assert (Hstage : forall w3, exists rs,
             requests ((if alias options
                        then _update_alias registry resolved options
                        else ret tt) w3).2 = requests w3 ++ rs
             /\ forallb not_delete rs = true).
  { intros w3. destruct (alias options).
    - unfold _update_alias. apply (for_each_kind not_delete).
      intros index w4. now apply family_keeps.
    - exists []. cbn. now rewrite app_nil_r. }
  destruct (refresh_new_indexes options).
  - pose proof (refresh_sent options resolved w2) as Hr3.
    destruct (_refresh_new_indexes resolved options w2) as [[[]|e] w3];
      cbn [snd] in *.
    + destruct (Hstage w3) as (rs & Hrs & Hkind). eexists.
      split; [rewrite Hrs, Hr3, Hr2, Hr1, <- !app_assoc; reflexivity|].
      now rewrite !forallb_app, Htemplates, Hupdates, Hkind.
    + eexists. split; [rewrite Hr3, Hr2, Hr1, <- !app_assoc; reflexivity|].
      now rewrite !forallb_app, Htemplates, Hupdates.
  - unfold ret at 1. destruct (Hstage w2) as (rs & Hrs & Hkind). eexists.
    split; [rewrite Hrs, Hr2, Hr1, <- !app_assoc; reflexivity|].
    now rewrite !forallb_app, Htemplates, Hupdates, Hkind.
Qed.

End WipeFacts.

(** ** The name of a fixed alias *)

Section NameFacts.

Lemma replace_from_skip (old new u t : string) :
  Py.replace_from old new (String.length u) (u +:+ t) = Py.replace_from old new 0 t.
Proof.
  induction u as [|c u IH]; [reflexivity|].
  rewrite append_cons. cbn [String.length Py.replace_from]. exact IH.
Qed.

Lemma replace_from_absent (old new s : string) :
  occurs old s = false -> Py.replace_from old new 0 s = s.
Proof.
  induction s as [|c s IH]; [reflexivity|].
  cbn [occurs]. intros Hno. apply orb_false_iff in Hno as [Hhere Hlater].
  cbn [Py.replace_from]. rewrite Hhere. f_equal. now apply IH.
Qed.

Lemma replace_nonempty (s old new : string) :
  old <> EmptyString -> Py.replace s old new = Py.replace_from old new 0 s.
Proof. now destruct old. Qed.

Lemma replace_leading (old post : string) :
  old <> EmptyString ->
  occurs old post = false ->
  Py.replace (old +:+ post) old EmptyString = post.
Proof.
  intros Hold Hno. rewrite replace_nonempty by exact Hold.
  destruct old as [|c old]; [congruence|].
  rewrite append_cons. cbn [Py.replace_from].
  rewrite <- append_cons.
  change (String.prefix (String c old) (String c old +:+ post))
    with (Py.startswith (String c old +:+ post) (String c old)).
  rewrite startswith_append.
  replace (String.length (String c old) - 1) with (String.length old)
    by (cbn [String.length]; lia).
  change (EmptyString +:+ ?x) with x.
  rewrite replace_from_skip. now apply replace_from_absent.
Qed.

Lemma run_prefix_nonempty (index : index) (options : Options) :
  str (index_base_id options) +:+ "-" +:+ _name index <> EmptyString.
Proof. now destruct (str (index_base_id options)). Qed.

(** X12.  The fixed alias of a physical index.  For an index named
    [{run_id}-{family}] followed by a postfix in which that prefix does not
    occur again, the fixed alias is the family name, the fixed suffix and the
    postfix.  For an index in whose name [{run_id}-{family}] does not occur at
    all, nothing is stripped: the alias is the family name, the fixed suffix
    and the whole index name. *)
Theorem fixed_alias_keeps_the_postfix (index : index) (options : Options)
    (name : string) :
  let prefix := str (index_base_id options) +:+ "-" +:+ _name index in
  (occurs prefix name = false ->
   fixed_alias_name index options (prefix +:+ name)
   = _name index +:+ alias_fixed_pattern options +:+ name)
  /\ (occurs prefix name = false ->
      fixed_alias_name index options name
      = _name index +:+ alias_fixed_pattern options +:+ name).
Proof.
  cbv zeta. split; intros Hno; unfold fixed_alias_name; do 2 f_equal.
  - apply replace_leading; [apply run_prefix_nonempty | exact Hno].
  - rewrite replace_nonempty by apply run_prefix_nonempty.
    now apply replace_from_absent.
Qed.

End NameFacts.

(** ** The alias updates, on the reference cluster *)

Section ReferenceFacts.
Import RefCluster RefFacts.
Variables (index : index) (options : Options).

Lemma resolve_matches (a pat : string) (l : list (string * gset string))
    (tp : list (string * string)) :
  (forall ix, In ix l -> carries a ix = glob pat ix.1) ->
  resolve a (Cluster l tp) = List.filter (glob pat) (map fst l).
Proof.
  unfold resolve. cbn [indices]. induction l as [|ix l IH]; intros Hl; [reflexivity|].
  cbn [List.filter map]. rewrite (Hl ix (or_introl eq_refl)).
  destruct (glob pat ix.1); cbn [map]; rewrite IH; auto; intros x Hx; apply Hl; now right.
Qed.

Lemma assigned_carries (a pat : string) (ixs : list (string * gset string))
    (ix : string * gset string) :
  In ix (map (assign_alias a pat) ixs) -> carries a ix = glob pat ix.1.
Proof.
  intros Hix. apply in_map_iff in Hix as (ix0 & <- & _).
  rewrite assign_alias_carries, assign_alias_fst.
  now destruct (decide (a = a)).
Qed.

(** X13.  When the wildcard alias is missing, or the first index it resolves
    to is not of this run, the wildcard update succeeds on the reference
    cluster and afterwards the alias resolves to exactly the indexes of the
    cluster whose names match [{run_id}-{family}-*], in the cluster's order:
    none of another pattern is left on it, none that matches is left out. *)
Theorem wildcard_alias_resolves_to_the_pattern (w : world t) :
  match resolve (wildcard_alias_name index options) (cluster w) with
  | [] => True
  | first :: _ => Py.startswith first (str (index_base_id options)) = false
  end ->
  exists w',
    _update_wildcard_indexes index options w = (Ok tt, w')
    /\ resolve (wildcard_alias_name index options) (cluster w')
       = List.filter (glob (target_pattern index options))
           (map fst (indices (cluster w'))).
Proof.
  intros Hold. rewrite wildcard_run, get_alias_run.
  destruct (resolve _ (cluster w)) as [|n names] eqn:Hres.
  - unfold indices_update_aliases, call. cbn.
    eexists. split; [reflexivity|]. cbn [cluster indices].
    rewrite (add_is_assign _ _ _ (templates (cluster w)))
      by now rewrite cluster_eta.
    apply resolve_matches, assigned_carries.
  - rewrite keys_answer, Hold.
    assert (Hswap : map (add_alias (wildcard_alias_name index options)
                           (target_pattern index options))
                      (map (remove_alias (wildcard_alias_name index options)
                              (n :: names)) (indices (cluster w)))
                    = map (assign_alias (wildcard_alias_name index options)
                             (target_pattern index options)) (indices (cluster w))).
    { rewrite <- Hres. rewrite <- (cluster_eta (cluster w)) at 1.
      apply swap_is_assign. }
    unfold wildcard_swap, try_except_NotFoundError, bind, indices_update_aliases,
      indices_delete, call, ret.
    destruct (wipe_old_indexes options); cbn; eexists; (split; [reflexivity|]);
      cbn [cluster indices]; rewrite Hswap; apply resolve_matches.
    + intros ix Hix. apply filter_In in Hix as [Hix _].
      now apply assigned_carries in Hix.
    + apply assigned_carries.
Qed.

Lemma glob_star_free (pat name : string) :
  star_free pat = true -> glob pat name = String.eqb pat name.
Proof.
  revert name. induction pat as [|c pat IH]; intros name Hfree.
  - now destruct name.
  - cbn [star_free] in Hfree. apply andb_true_iff in Hfree as [Hc Hfree].
    apply negb_true_iff in Hc. cbn [glob]. rewrite Hc.
    destruct name as [|d name]; [reflexivity|].
    cbn [String.eqb]. rewrite (IH _ Hfree).
    now destruct (Ascii.eqb c d).
Qed.

Lemma filter_eqb_once (c : string) (l : list string) :
  NoDup l -> In c l -> List.filter (String.eqb c) l = [c].
Proof.
  induction 1 as [|x l Hx Hl IH]; intros Hc; [destruct Hc|].
  cbn [List.filter]. destruct (String.eqb c x) eqn:Heq.
  - apply String.eqb_eq in Heq as <-. f_equal.
    clear IH Hc. induction l as [|y l IHl]; [reflexivity|].
    cbn [List.filter]. destruct (String.eqb c y) eqn:Hy.
    + apply String.eqb_eq in Hy as <-. exfalso. apply Hx. now left.
    + apply IHl.
      * intros Hin. apply Hx. now right.
      * now apply NoDup_cons_1_2 in Hl.
  - destruct Hc as [<-|Hc]; [now rewrite String.eqb_refl in Heq|]. now apply IH.
Qed.

(** X14.  One turn of the fixed-alias loop, on the reference cluster: for an
    index that exists, under distinct index names, the turn succeeds and
    afterwards the fixed alias resolves to that index and no other, whatever
    it resolved to before; the indexes are the same and every other alias
    resolves as it did. *)
Theorem fixed_alias_resolves_to_its_index (current_index : string) (w : world t) :
  star_free current_index = true ->
  NoDup (map fst (indices (cluster w))) ->
  In current_index (map fst (indices (cluster w))) ->
  exists w',
    _update_fixed_index index options current_index w = (Ok tt, w')
    /\ resolve (fixed_alias_name index options current_index) (cluster w')
       = [current_index]
    /\ map fst (indices (cluster w')) = map fst (indices (cluster w))
    /\ forall other,
         other <> fixed_alias_name index options current_index ->
         resolve other (cluster w') = resolve other (cluster w).
Proof.
  intros Hfree Hdistinct Hexists.
  destruct (fixed_index_effect index options current_index w) as (w' & Hrun & Hc).
  exists w'. split; [exact Hrun|]. rewrite Hc. cbn [indices].
  split; [|split].
  - rewrite (resolve_matches _ current_index) by apply assigned_carries.
    rewrite map_fst_assign.
    rewrite (filter_ext _ (String.eqb current_index))
      by (intros n; now apply glob_star_free).
    now apply filter_eqb_once.
  - apply map_fst_assign.
  - intros other Hother. unfold resolve. cbn [indices].
    clear - Hother. generalize (indices (cluster w)). intros l.
    induction l as [|ix l IH]; [reflexivity|].
    cbn [map List.filter]. rewrite assign_alias_carries.
    destruct (decide (other = _)) as [Heq|_]; [contradiction|].
    destruct (carries other ix); cbn [map]; now rewrite IH, ?assign_alias_fst.
Qed.

End ReferenceFacts.

(** ** Failures before the alias stage *)

Section FailureFacts.
Context {ES : Type} `{Elasticsearch ES}.
Variables (registry : Registry) (options : Options).

(** X17.  A failure while the templates are saved or the documents are
    indexed ends the run with that error, in the world that stage left: no
    refresh is asked for, and no alias is read or changed and no index
    deleted, so the aliases still point where they did. *)
Theorem failure_before_the_alias_stage (w : world ES) (resolved : list model)
    (e : exn) (failed : world ES) :
  _get_models registry (models options) w = (Ok resolved, w) ->
  _create_index_templates registry resolved options w = (Raise e, failed)
  \/ (exists w1,
        _create_index_templates registry resolved options w = (Ok tt, w1)
        /\ _reindex_as_new registry resolved options w1 = (Raise e, failed)) ->
  handle registry options w = (Raise e, failed)
  /\ exists rs,
       requests failed = requests w ++ rs
       /\ forallb (fun r => negb (alias_request r)) rs = true
       /\ ~ In (refresh_request options) rs.
Proof.
  intros Hresolved Hfailure.
  assert (Htemplates : forall l,
            forallb (fun r => negb (alias_request r)) (map (template_request options) l)
            = true)
    by (intros l; induction l; auto).
  assert (Hupdates : forall l,
            forallb (fun r => negb (alias_request r)) (map (populate_request options) l)
            = true)
    by (intros l; induction l; auto).
  assert (Hno_t : forall l, ~ In (refresh_request options)
                               (map (template_request options) l))
    by (intros l Hin; apply in_map_iff in Hin as (doc & Heq & _); discriminate).
  assert (Hno_p : forall l, ~ In (refresh_request options)
                               (map (populate_request options) l))
    by (intros l Hin; apply in_map_iff in Hin as (doc & Heq & _); discriminate).
  unfold handle, bind. rewrite Hresolved.
  destruct (templates_sent registry options resolved w) as (k1 & _ & Hr1 & _).
  destruct Hfailure as [Hfail | (w1 & Hsaved & Hfail)].
  - rewrite Hfail in *. cbn [snd] in Hr1. split; [reflexivity|].
    eexists. split; [exact Hr1|]. split; [apply Htemplates | apply Hno_t].
  - rewrite Hsaved in *. cbn [snd] in Hr1.
    destruct (populate_sent registry options resolved w1) as (k2 & _ & Hr2 & _).
    rewrite Hfail in *. cbn [snd] in Hr2. split; [reflexivity|].
    eexists. split; [rewrite Hr2, Hr1, <- app_assoc; reflexivity|].
    split; [now rewrite forallb_app, Htemplates, Hupdates|].
    intros Hin. apply in_app_or in Hin as [Hin|Hin];
      [now apply Hno_t in Hin | now apply Hno_p in Hin].
Qed.

End FailureFacts.

(** ** The further properties at concrete inputs *)

Section MoreWitnesses.
Import RefCluster RefFacts Scenario.

Lemma known_selectors_resolve_witness :
  let args := ["LIBRARY"; "library.Novel"] in
  args <> []
  /\ forallb (known (registry [book])) args = true
  /\ exists resolved,
       _get_models (registry [book]) (Some args) (start fresh) = (Ok resolved, start fresh)
       /\ NoDup resolved.
Proof.
  cbv zeta. split; [discriminate|]. split; [reflexivity|].
  destruct (known_selectors_resolve (registry [book]) ["LIBRARY"; "library.Novel"]
              (start fresh)) as (resolved & Hrun & Hnodup & _);
    [discriminate | reflexivity |].
  exists resolved. auto.
Defined.

Lemma selectors_differing_in_case_witness :
  map Py.lower ["Library"; "Shop"] = map Py.lower ["LIBRARY"; "shop"]
  /\ _get_models (registry [book]) (Some ["Library"; "Shop"]) (start fresh)
     = _get_models (registry [book]) (Some ["LIBRARY"; "shop"]) (start fresh).
Proof.
  split; [reflexivity|].
  apply (selectors_differing_in_case (registry [book])). reflexivity.
Defined.

Lemma handle_runs_the_stages_in_order_witness :
  let w := start (before true) in
  let w' := (handle (registry [book]) (options true) w).2 in
  handle (registry [book]) (options true) w = (Ok tt, w')
  /\ exists resolved rs,
       _get_models (registry [book]) (models (options true)) w = (Ok resolved, w)
       /\ forallb alias_request rs = true.
Proof.
  cbv zeta.
  assert (Hrun : handle (registry [book]) (options true) (start (before true))
                 = (Ok tt, (handle (registry [book]) (options true)
                              (start (before true))).2))
    by (vm_compute; reflexivity).
  split; [exact Hrun|].
  destruct (handle_runs_the_stages_in_order (registry [book]) (options true) _ _ Hrun)
    as (resolved & rs & Hresolved & _ & Hkind & _).
  exists resolved, rs. auto.
Defined.

Lemma no_update_alias_leaves_aliases_alone_witness :
  alias options_no_alias = false
  /\ exists rs,
       requests (handle (registry [book]) options_no_alias (start (before true))).2
       = requests (start (before true)) ++ rs
       /\ forallb (fun r => negb (alias_request r)) rs = true.
Proof.
  split; [reflexivity|].
  apply (no_update_alias_leaves_aliases_alone (registry [book]) options_no_alias).
  reflexivity.
Defined.

Lemma wipe_off_never_deletes_witness :
  wipe_old_indexes (options false) = false
  /\ exists rs,
       requests (handle (registry [book]) (options false) (start (before true))).2
       = requests (start (before true)) ++ rs
       /\ forallb not_delete rs = true.
Proof.
  split; [reflexivity|].
  apply (wipe_off_never_deletes (registry [book]) (options false)). reflexivity.
Defined.

Lemma fixed_skips_another_generation_witness :
  let w := start (before true) in
  let answer := [("999-book-novel", ["book_r_wildcard"])] in
  es_get_alias (wildcard_alias_name book (options true)) (cluster w) = Ok answer
  /\ keys answer = ["999-book-novel"]
  /\ Py.startswith "999-book-novel" (str (index_base_id (options true))) = false
  /\ (_update_fixed_indexes book (options true) w).1 = Ok tt.
Proof.
  cbv zeta.
  assert (Hget : es_get_alias (wildcard_alias_name book (options true))
                   (cluster (start (before true)))
                 = Ok [("999-book-novel", ["book_r_wildcard"])])
    by (vm_compute; reflexivity).
  assert (Hsw : Py.startswith "999-book-novel" (str (index_base_id (options true)))
                = false)
    by (vm_compute; reflexivity).
  split; [exact Hget|]. split; [reflexivity|]. split; [exact Hsw|].
  now rewrite (fixed_skips_another_generation book (options true) _ _
                 "999-book-novel" [] Hget eq_refl Hsw).
Defined.

Lemma alias_read_error_propagates_witness :
  let w : world Offline.t := start tt in
  let e := TransportError "connection refused" in
  es_get_alias (wildcard_alias_name book (options true)) (cluster w) = Raise e
  /\ e <> NotFoundError
  /\ (_update_wildcard_indexes book (options true) w).1 = Raise e
  /\ (_update_fixed_indexes book (options true) w).1 = Raise e.
Proof.
  cbv zeta. split; [reflexivity|]. split; [discriminate|].
  destruct (alias_read_error_propagates book (options true)
              (start tt : world Offline.t) (TransportError "connection refused"))
    as [Hwildcard Hfixed]; [reflexivity | discriminate |].
  rewrite Hwildcard, Hfixed. split; reflexivity.
Defined.

Lemma fixed_alias_is_created_or_replaced_witness :
  es_get_alias (fixed_alias_name book (options true) "1000-book-novel")
    (cluster (start fresh)) = Raise NotFoundError
  /\ requests (_update_fixed_index book (options true) "1000-book-novel" (start fresh)).2
     = [GetAlias "book_r-novel"; UpdateAliases [Add "book_r-novel" "1000-book-novel"]]
  /\ es_get_alias (fixed_alias_name book (options true) "1000-book-novel")
       (cluster (start (before true))) = Ok [("999-book-novel", ["book_r-novel"])]
  /\ requests (_update_fixed_index book (options true) "1000-book-novel"
                 (start (before true))).2
     = [GetAlias "book_r-novel";
        UpdateAliases [Remove "book_r-novel" ["999-book-novel"];
                       Add "book_r-novel" "1000-book-novel"]].
Proof.
  assert (Hnone : es_get_alias (fixed_alias_name book (options true) "1000-book-novel")
                    (cluster (start fresh)) = Raise NotFoundError)
    by (vm_compute; reflexivity).
  assert (Hold : es_get_alias (fixed_alias_name book (options true) "1000-book-novel")
                   (cluster (start (before true)))
                 = Ok [("999-book-novel", ["book_r-novel"])])
    by (vm_compute; reflexivity).
  split; [exact Hnone|]. split.
  - rewrite (proj1 (fixed_alias_is_created_or_replaced book (options true)
                      "1000-book-novel" (start fresh)) Hnone).
    vm_compute. reflexivity.
  - split; [exact Hold|].
    rewrite (proj2 (fixed_alias_is_created_or_replaced book (options true)
                      "1000-book-novel" (start (before true))) _ Hold).
    vm_compute. reflexivity.
Defined.

Lemma fixed_alias_keeps_the_postfix_witness :
  occurs "1000-book" "-novel" = false
  /\ fixed_alias_name book (options true) "1000-book-novel" = "book_r-novel"
  /\ occurs "1000-book" "999-book-novel" = false
  /\ fixed_alias_name book (options true) "999-book-novel" = "book_r999-book-novel".
Proof.
  split; [reflexivity|]. split.
  - apply (proj1 (fixed_alias_keeps_the_postfix book (options true) "-novel")).
    reflexivity.
  - split; [reflexivity|].
    apply (proj2 (fixed_alias_keeps_the_postfix book (options true) "999-book-novel")).
    reflexivity.
Defined.

Lemma wildcard_alias_resolves_to_the_pattern_witness :
  let w := start (before true) in
  resolve (wildcard_alias_name book (options true)) (cluster w) = ["999-book-novel"]
  /\ Py.startswith "999-book-novel" (str (index_base_id (options true))) = false
  /\ exists w',
       _update_wildcard_indexes book (options true) w = (Ok tt, w')
       /\ resolve (wildcard_alias_name book (options true)) (cluster w')
          = List.filter (glob (target_pattern book (options true)))
              (map fst (indices (cluster w'))).
Proof.
  cbv zeta. split; [vm_compute; reflexivity|]. split; [vm_compute; reflexivity|].
  apply (wildcard_alias_resolves_to_the_pattern book (options true)).
  vm_compute. reflexivity.
Defined.

Lemma fixed_alias_resolves_to_its_index_witness :
  let w := start (before true) in
  star_free "1000-book-novel" = true
  /\ NoDup (map fst (indices (cluster w)))
  /\ In "1000-book-novel" (map fst (indices (cluster w)))
  /\ exists w',
       _update_fixed_index book (options true) "1000-book-novel" w = (Ok tt, w')
       /\ resolve "book_r-novel" (cluster w') = ["1000-book-novel"].
Proof.
  cbv zeta.
  assert (Hdistinct : NoDup (map fst (indices (cluster (start (before true)))))).
  { cbn. apply NoDup_cons. split; [|apply NoDup_singleton].
    intros Hin. apply list_elem_of_In in Hin. destruct Hin as [Heq|[]]. discriminate. }
  assert (Hexists : In "1000-book-novel"
                      (map fst (indices (cluster (start (before true))))))
    by (cbn; auto).
  split; [reflexivity|]. split; [exact Hdistinct|]. split; [exact Hexists|].
  destruct (fixed_alias_resolves_to_its_index book (options true) "1000-book-novel"
              (start (before true)) eq_refl Hdistinct Hexists)
    as (w' & Hrun & Hresolve & _).
  exists w'. auto.
Defined.

Lemma garbage_collection_effect_witness :
  let w := start (before true) in
  forallb comma_free (map fst (indices (cluster w))) = true
  /\ resolve (wildcard_alias_name book (options true)) (cluster w) = ["999-book-novel"]
  /\ Py.startswith "999-book-novel" (str (index_base_id (options true))) = false
  /\ wipe_old_indexes (options true) = true
  /\ exists w',
       _update_wildcard_indexes book (options true) w = (Ok tt, w')
       /\ map fst (indices (cluster w')) = ["1000-book-novel"].
Proof.
  cbv zeta.
  assert (Hres : resolve (wildcard_alias_name book (options true))
                   (cluster (start (before true))) = ["999-book-novel"])
    by (vm_compute; reflexivity).
  assert (Hsw : Py.startswith "999-book-novel" (str (index_base_id (options true)))
                = false)
    by (vm_compute; reflexivity).
  split; [reflexivity|]. split; [exact Hres|]. split; [exact Hsw|].
  split; [reflexivity|].
  destruct (garbage_collection_effect book (options true) (start (before true))
              "999-book-novel" [] eq_refl Hres Hsw eq_refl) as (w' & Hrun & Hleft).
  exists w'. split; [exact Hrun|]. rewrite Hleft. vm_compute. reflexivity.
Defined.

Lemma settled_stage_changes_nothing_witness :
  let w1 := (_update_alias (registry [book]) [novel] (options true)
               (start (before true))).2 in
  settled (options true) [book] (cluster w1)
  /\ exists w2,
       _update_alias (registry [book]) [novel] (options true) w1 = (Ok tt, w2)
       /\ cluster w2 = cluster w1.
Proof.
  cbv zeta. split; [exact book_scenario_settles|].
  apply (settled_stage_changes_nothing (options true) [book]).
  exact book_scenario_settles.
Defined.



Lemma failure_before_the_alias_stage_witness :
  let w := start ReadOnly.Locked in
  let e := TransportError "index is read-only" in
  _get_models (registry [book]) (models (options true)) w = (Ok [novel], w)
  /\ (exists w1,
        _create_index_templates (registry [book]) [novel] (options true) w = (Ok tt, w1)
        /\ (_reindex_as_new (registry [book]) [novel] (options true) w1).1 = Raise e)
  /\ (handle (registry [book]) (options true) w).1 = Raise e.
Proof.
  cbv zeta.
  assert (Hresolved : _get_models (registry [book]) (models (options true))
                        (start ReadOnly.Locked)
                      = (Ok [novel], start ReadOnly.Locked))
    by (vm_compute; reflexivity).
  assert (Hsaved : _create_index_templates (registry [book]) [novel] (options true)
                     (start ReadOnly.Locked)
                   = (Ok tt, (_create_index_templates (registry [book]) [novel]
                                (options true) (start ReadOnly.Locked)).2))
    by (vm_compute; reflexivity).
  assert (Hfail : _reindex_as_new (registry [book]) [novel] (options true)
                    (_create_index_templates (registry [book]) [novel]
                       (options true) (start ReadOnly.Locked)).2
                  = (Raise (TransportError "index is read-only"),
                     (_reindex_as_new (registry [book]) [novel] (options true)
                        (_create_index_templates (registry [book]) [novel]
                           (options true) (start ReadOnly.Locked)).2).2))
    by (vm_compute; reflexivity).
  split; [exact Hresolved|]. split.
  - eexists. split; [exact Hsaved|]. now rewrite Hfail.
  - destruct (failure_before_the_alias_stage (registry [book]) (options true)
                (start ReadOnly.Locked) [novel]
                (TransportError "index is read-only") _ Hresolved
                (or_intror (ex_intro _ _ (conj Hsaved Hfail)))) as [Hrun _].
    now rewrite Hrun.
Defined.

End MoreWitnesses.
